(** * The CUDA baton of c10d: host controller, control channel, device wait loop

    Sources embedded here:
    - Baton.h (src/unnamed/part_001)   : [BatonStatus], the abstract [Baton]
    - Baton.cuh (src/unnamed/part_000) : [detail::Baton] with [abort] and [status]
    - torch/csrc/distributed/c10d/cuda/Baton.cu  : [kernel_barrier], [Baton::Baton]
    - torch/csrc/distributed/c10d/cuda/Baton.cpp : the [baton] factory
    - flash_api.hip (src/unnamed/part_000, from line 32) : the ROCm flash
      attention front end, in the module [pytorch_flash] below

    The host and the device share one pinned tensor of two int32 words.  The
    model is an interleaving semantics: a state holds that tensor, the
    constructor argument and the control point of the kernel; a timed trace
    of host calls and device steps drives it.  Memory is taken to be
    sequentially consistent (one shared store). *)

From Stdlib Require Import ZArith Lia Floats.SpecFloat.
From stdpp Require Import base list strings gmap.

Open Scope Z_scope.

(** ** Machine integers *)

Definition is_int32 (z : Z) : Prop := -2 ^ 31 <= z < 2 ^ 31.

(** Conversion to [size_t] (64 bits) and [size_t] subtraction. *)
Definition to_size_t (z : Z) : Z := z mod 2 ^ 64.
Definition size_t_sub (a b : Z) : Z := (a - b) mod 2 ^ 64.

(** ** [enum BatonStatus : int32_t] (Baton.h)

    The enumeration has a fixed underlying type, so a [BatonStatus] object
    can hold every int32 value; it is modelled by its underlying integer. *)

Definition BatonStatus : Type := Z.

Definition UNKNOWN : BatonStatus := 0.
Definition RUNNING : BatonStatus := 1.
Definition TIMED_OUT : BatonStatus := 2.
Definition ABORTED : BatonStatus := 3.

Definition is_enumerator (s : BatonStatus) : Prop :=
  s = UNKNOWN \/ s = RUNNING \/ s = TIMED_OUT \/ s = ABORTED.

Definition is_terminal (s : BatonStatus) : Prop :=
  s = TIMED_OUT \/ s = ABORTED.

Definition static_cast_BatonStatus (v : Z) : BatonStatus := v.

(** ** The tensor [comm_]: a list of int32 words, indexed from 0.
    The code only reads indices 0 and 1 of a tensor of two elements. *)

Definition item (t : list Z) (i : nat) : Z := default 0 (t !! i).

(** ** [size_t timeout_ns = timeout_ms * 1e6;]

    [timeout_ms] is converted to double, multiplied by the double [1e6]
    and the product is converted back to [size_t].  [round_double n] is
    the nonnegative integer [n] rounded to 53 significant bits, ties to
    even (binary64, no overflow below 2^1024); both the conversion of
    [timeout_ms] and the product are rounded that way.  The conversion of
    a double that does not fit [size_t] is undefined in C++; the device
    conversion instruction clamps, which is what [double_to_size_t]
    does. *)

Definition round_double (n : Z) : Z :=
  let e := Z.log2 n - 52 in
  if e <=? 0 then n
  else
    let q := n / 2 ^ e in
    let r := n mod 2 ^ e in
    let half := 2 ^ (e - 1) in
    let q' := if r <? half then q
              else if half <? r then q + 1
              else if Z.even q then q else q + 1 in
    q' * 2 ^ e.

Definition double_to_size_t (x : Z) : Z :=
  if x <? 2 ^ 64 then x else 2 ^ 64 - 1.

Definition timeout_ns_of (timeout_ms : Z) : Z :=
  double_to_size_t (round_double (round_double timeout_ms * 1000000)).

(** The same computation through the Standard Library's binary64
    specification, used to cross-check [timeout_ns_of] on concrete
    values. *)
Definition timeout_ns_SF (timeout_ms : Z) : spec_float :=
  SFmul 53 1024
    (binary_normalize 53 1024 timeout_ms 0 false)
    (binary_normalize 53 1024 1000000 0 false).

Definition SF_to_Z (x : spec_float) : option Z :=
  match x with
  | S754_zero _ => Some 0
  | S754_finite false m e =>
      Some (if 0 <=? e then Z.pos m * 2 ^ e else Z.pos m / 2 ^ (- e))
  | _ => None
  end.

(** ** Control points of [kernel_barrier] (Baton.cu, lines 11-39) *)

Inductive kpc : Type :=
| Queued                          (* launched, not yet executing *)
| Started                         (* line 14 done, about to read [start] *)
| LoopTop (start : Z)             (* line 20: about to read [value[0]] *)
| TimeCheck (start : Z)           (* line 29: about to read [now] *)
| Nanosleep (start : Z) (ns : Z)  (* line 37: inside [__nanosleep(ns)] *)
| Returned.                       (* the kernel has returned *)

(** ** The state shared by the host object and the kernel *)

Record state : Type := mkState {
  comm_ : list Z;        (* the pinned tensor: [abort word; status word] *)
  timeout_ : Z;          (* [timeout_.count()], milliseconds *)
  kernel : kpc;          (* where the kernel is *)
  dev_writes : list Z    (* ghost: values the kernel stored in [value[1]], oldest first *)
}.

(** ** Host side (Baton.cuh) *)

(** [void abort() { comm_[0] = 1; }] *)
Definition abort (s : state) : state :=
  mkState (<[0%nat := 1]> (comm_ s)) (timeout_ s) (kernel s) (dev_writes s).

(** [BatonStatus status() { return static_cast<BatonStatus>(comm_[1].item<int32_t>()); }] *)
Definition status (s : state) : BatonStatus :=
  static_cast_BatonStatus (item (comm_ s) 1).

(** ** Device side (Baton.cu) *)

(** [value[1] = v;] *)
Definition store_status (v : Z) (pc : kpc) (s : state) : state :=
  mkState (<[1%nat := v]> (comm_ s)) (timeout_ s) pc (dev_writes s ++ [v]).

Definition goto (pc : kpc) (s : state) : state :=
  mkState (comm_ s) (timeout_ s) pc (dev_writes s).

(** The kernel argument [size_t timeout_ms] receives [timeout_.count()]. *)
Definition timeout_ms (s : state) : Z := to_size_t (timeout_ s).

(** One step of [kernel_barrier]; [clock] is what [global_timer_ns()]
    returns if the step reads it. *)
Definition kernel_barrier_step (clock : Z) (s : state) : state :=
  match kernel s with
  | Queued =>
      (* value[1] = BatonStatus::RUNNING; *)
      store_status RUNNING Started s
  | Started =>
      (* size_t start = global_timer_ns(); size_t timeout_ns = timeout_ms * 1e6; *)
      goto (LoopTop (to_size_t clock)) s
  | LoopTop start =>
      (* int current_value = atomicAdd(&value[0], 0); *)
      let current_value := item (comm_ s) 0 in
      if current_value =? 1 then
        (* value[1] = BatonStatus::ABORTED; return; *)
        store_status ABORTED Returned s
      else if 0 <? timeout_ms s then goto (TimeCheck start) s
      else goto (Nanosleep start 1000000) s
  | TimeCheck start =>
      (* size_t now = global_timer_ns(); *)
      let now := to_size_t clock in
      if timeout_ns_of (timeout_ms s) <? size_t_sub now start then
        (* value[1] = BatonStatus::TIMED_OUT; return; *)
        store_status TIMED_OUT Returned s
      else goto (Nanosleep start 1000000) s
  | Nanosleep start _ =>
      (* __nanosleep(1000000) is over; back to while (true) *)
      goto (LoopTop start) s
  | Returned => s
  end.

(** ** Timed traces: what the host and the device do, and when (ns) *)

Inductive event : Type :=
| HostAbort      (* a host thread calls abort() *)
| HostStatus     (* a host thread calls status() *)
| Device.        (* the kernel executes its next step *)

#[global] Instance event_eq_dec : EqDecision event.
Proof. solve_decision. Defined.

Definition step (s : state) (te : Z * event) : state :=
  match te.2 with
  | HostAbort => abort s
  | HostStatus => s
  | Device => kernel_barrier_step te.1 s
  end.

Definition run (s : state) (tr : list (Z * event)) : state := foldl step s tr.

(** The values returned by the [status()] calls of a trace, in order. *)
Fixpoint observations (s : state) (tr : list (Z * event)) : list BatonStatus :=
  match tr with
  | [] => []
  | te :: tr' =>
      match te.2 with
      | HostStatus => status s :: observations (step s te) tr'
      | _ => observations (step s te) tr'
      end
  end.

Definition host_only (tr : list (Z * event)) : Prop :=
  Forall (fun te => te.2 <> Device) tr.

(** Times never go back and start at the construction (time 0). *)
Fixpoint chronological (from : Z) (tr : list (Z * event)) : Prop :=
  match tr with
  | [] => True
  | te :: tr' => from <= te.1 /\ chronological te.1 tr'
  end.

(** ** Construction (Baton.cu, lines 41-48) *)

Inductive result (A : Type) : Type :=
| Ok (a : A)
| Throw (msg : string).
Arguments Ok {A} a.
Arguments Throw {A} msg.

(** What the runtime does during a construction: [at::empty(..).pin_memory()]
    either throws or returns a tensor of two int32 words whose contents
    are whatever the storage held ([at::empty] does not initialize); the
    launch check either passes or throws. *)
Record runtime : Type := mkRuntime {
  empty_pinned : option (Z * Z);
  launch_fails : bool
}.

(** The state right after [kernel_barrier<<<1, 1, 0>>>(...)] was enqueued
    on a tensor holding [w]. *)
Definition launched (w : Z * Z) (timeout : Z) : state :=
  mkState [w.1; w.2] timeout Queued [].

Definition Baton_ctor (rt : runtime) (timeout : Z) : result state :=
  match empty_pinned rt with
  | None => Throw "empty: allocation failed"
  | Some w =>
      if launch_fails rt then Throw "CUDA kernel launch error"
      else Ok (launched w timeout)
  end.

(** ** The registry and the factory (Baton.cpp) *)

(** A [std::unique_ptr<Baton>]: [None] is the null pointer. *)
Definition unique_ptr : Type := option state.

(** Modelled from the spec: [c10::Registry] (c10/util/Registry.h, behind
    [C10_DEFINE_REGISTRY] and [C10_REGISTER_CLASS]) is not among the
    sources.  The spec gives its interface: register(name, factory)
    associates a name with a constructor; create(name, timeout) returns a
    Baton instance or a failure if the name is unregistered.  The failure
    of an unregistered name is the null pointer that [baton] tests for; an
    exception thrown by the constructor passes through. *)
Definition Register (key : string) (creator : Z -> result state)
    (reg : gmap string (Z -> result state)) : gmap string (Z -> result state) :=
  <[key := creator]> reg.

Definition Create (reg : gmap string (Z -> result state)) (key : string)
    (timeout : Z) : result unique_ptr :=
  match reg !! key with
  | None => Ok None
  | Some creator =>
      match creator timeout with
      | Ok b => Ok (Some b)
      | Throw msg => Throw msg
      end
  end.

(** [C10_REGISTER_CLASS(BatonRegistry, CUDA, Baton)] *)
Definition BatonRegistry (rt : runtime) : gmap string (Z -> result state) :=
  Register "CUDA" (Baton_ctor rt) ∅.

(** [std::unique_ptr<Baton> baton(std::chrono::milliseconds timeout)] *)
Definition baton (reg : gmap string (Z -> result state)) (timeout : Z)
    : result unique_ptr :=
  match Create reg "CUDA" timeout with
  | Throw msg => Throw msg
  | Ok p =>
      (* TORCH_CHECK(baton, "Failed to create baton"); *)
      match p with
      | None => Throw "Failed to create baton"
      | Some b => Ok (Some b)
      end
  end.

(** ** Invariant of every run *)

(** What holds of every state reached from a launch on a tensor whose
    status word was [w1]: the tensor keeps its two words, and the stores
    the kernel has made so far, the status word and the control point
    agree. *)
Definition consistent (w1 : Z) (s : state) : Prop :=
  length (comm_ s) = 2%nat /\
  match kernel s with
  | Queued => dev_writes s = [] /\ status s = w1
  | Started | LoopTop _ | Nanosleep _ _ =>
      dev_writes s = [RUNNING] /\ status s = RUNNING
  | TimeCheck _ =>
      dev_writes s = [RUNNING] /\ status s = RUNNING /\ 0 < timeout_ms s
  | Returned =>
      (dev_writes s = [RUNNING; TIMED_OUT] /\ status s = TIMED_OUT /\
       0 < timeout_ms s) \/
      (dev_writes s = [RUNNING; ABORTED] /\ status s = ABORTED /\
       item (comm_ s) 0 = 1)
  end.

(** The kernel is between the abort check and the time check of one
    iteration. *)
Definition mid_iteration (s : state) : Prop :=
  exists start, kernel s = TimeCheck start.

(** Number of device steps in a trace. *)
Fixpoint device_steps (tr : list (Z * event)) : nat :=
  match tr with
  | [] => 0%nat
  | te :: tr' =>
      match te.2 with
      | Device => S (device_steps tr')
      | _ => device_steps tr'
      end
  end.

(** A trace without the [abort()] calls that follow an earlier one. *)
Fixpoint drop_aborts (tr : list (Z * event)) : list (Z * event) :=
  match tr with
  | [] => []
  | te :: tr' =>
      match te.2 with
      | HostAbort => drop_aborts tr'
      | _ => te :: drop_aborts tr'
      end
  end.

Fixpoint first_abort_only (tr : list (Z * event)) : list (Z * event) :=
  match tr with
  | [] => []
  | te :: tr' =>
      match te.2 with
      | HostAbort => te :: drop_aborts tr'
      | _ => te :: first_abort_only tr'
      end
  end.

(** ** Sentences of the spec that the code does not satisfy, as worded *)

(** "Atomically read abort_flag; if nonzero, write status=ABORTED and
    return." *)
Definition aborts_on_any_nonzero_flag : Prop :=
  forall (s : state) (start clock : Z),
    length (comm_ s) = 2%nat -> kernel s = LoopTop start ->
    item (comm_ s) 0 <> 0 ->
    status (kernel_barrier_step clock s) = ABORTED /\
    kernel (kernel_barrier_step clock s) = Returned.

(** The poll interval: the argument of [__nanosleep]. *)
Definition poll_interval : Z := 1000000.

(** "For any timeout t>=0 with abort issued at offset D (D<t, or t=0):
    status() eventually returns ABORTED within D + one poll interval, and
    never returns TIMED_OUT afterward."  Offsets are counted from the
    construction, in ns; the [status()] call is made at [at_], after
    everything else in the trace. *)
Definition abort_in_time_wins : Prop :=
  forall (t delta at_ : Z) (before after : list (Z * event)),
    0 <= t ->
    chronological 0 (before ++ (delta, HostAbort) :: after ++ [(at_, HostStatus)]) ->
    t = 0 \/ delta < t * 1000000 ->
    let s := run (launched (0, 0) t) (before ++ (delta, HostAbort) :: after) in
    status s <> TIMED_OUT /\ (delta + poll_interval <= at_ -> status s = ABORTED).

(** "status() under an unreachable channel/device must expose a distinct
    fault outcome."  An unreachable device executes no step of the
    kernel; an outcome distinct from those of a live baton is none of the
    four statuses. *)
Definition unreachable_device_is_reported : Prop :=
  forall (w : Z * Z) (t : Z) (tr : list (Z * event)),
    host_only tr -> ~ is_enumerator (status (run (launched w t) tr)).

(** Device steps up to and including the next read of the abort word,
    from a control point outside the time check. *)
Definition steps_to_flag_read (pc : kpc) : nat :=
  match pc with
  | Queued => 3
  | Started => 2
  | LoopTop _ => 1
  | TimeCheck _ => 4
  | Nanosleep _ _ => 2
  | Returned => 0
  end.

(** What holds from an [abort()] made outside the time check onwards;
    [v0] is the status word at the time of the call. *)
Definition aborting (v0 : Z) (s : state) : Prop :=
  length (comm_ s) = 2%nat /\ item (comm_ s) 0 = 1 /\
  ~ mid_iteration s /\
  ~ In TIMED_OUT (dev_writes s) /\
  (status s = v0 \/ status s = RUNNING \/ status s = ABORTED) /\
  (kernel s = Returned -> status s = ABORTED).

(** ** Time along a trace *)

(** The time of the last event of a trace that starts at [from]. *)
Fixpoint last_time (from : Z) (tr : list (Z * event)) : Z :=
  match tr with
  | [] => from
  | te :: tr' => last_time te.1 tr'
  end.

(** What the clock value kept by the kernel and a stored TIMED_OUT say
    about the current time [now]. *)
Definition on_time (now : Z) (s : state) : Prop :=
  match kernel s with
  | Queued | Started => ~ In TIMED_OUT (dev_writes s)
  | LoopTop start | TimeCheck start | Nanosleep start _ =>
      0 <= start <= now /\ ~ In TIMED_OUT (dev_writes s)
  | Returned =>
      In TIMED_OUT (dev_writes s) -> timeout_ns_of (timeout_ms s) < now
  end.

(** Device steps from a control point inside the loop up to and including
    the next time check. *)
Definition steps_to_time_check (pc : kpc) : nat :=
  match pc with
  | LoopTop _ => 2
  | TimeCheck _ => 1
  | Nanosleep _ _ => 3
  | _ => 0
  end.

(** A loop that nobody aborts, past its deadline: inside the loop with
    the abort word not 1, or returned with TIMED_OUT. *)
Definition expiring (start : Z) (s : state) : Prop :=
  length (comm_ s) = 2%nat /\ item (comm_ s) 0 <> 1 /\ 0 < timeout_ms s /\
  (kernel s = LoopTop start \/ kernel s = TimeCheck start \/
   (exists ns, kernel s = Nanosleep start ns) \/
   (kernel s = Returned /\ status s = TIMED_OUT)).


(** ** The time check as the specification words it *)

(** The loop is running with [start] as the clock value it keeps: at one
    of its three control points with that value, or left through a
    return. *)
Definition entered_at (start : Z) (pc : kpc) : Prop :=
  match pc with
  | LoopTop st | TimeCheck st | Nanosleep st _ => st = start
  | Returned => True
  | Queued | Started => False
  end.

(** "If timeout>0, compute elapsed time since loop start; if elapsed
    exceeds the timeout, write TIMED_OUT and return": for every timeout
    of t > 0 milliseconds, the first iteration of a loop entered at clock
    value [c0], whose abort check passes, stores TIMED_OUT and returns at
    clock value [c2] exactly when the elapsed time exceeds t * 10^6
    nanoseconds. *)
Definition times_out_exactly_past_the_timeout : Prop :=
  forall (s0 : state) (c0 c1 c2 : Z),
    0 < timeout_ s0 < 2 ^ 63 ->
    length (comm_ s0) = 2%nat ->
    kernel s0 = Started ->
    item (comm_ s0) 0 <> 1 ->
    let elapsed := size_t_sub (to_size_t c2) (to_size_t c0) in
    let s2 := kernel_barrier_step c2
                (kernel_barrier_step c1 (kernel_barrier_step c0 s0)) in
    (status s2 = TIMED_OUT /\ kernel s2 = Returned)
    <-> timeout_ s0 * 1000000 < elapsed.
(** * The ROCm flash attention front end

    Source: flash_api.hip of [pytorch_flash] (src/unnamed/part_000, lines
    62-687).  Embedded here: [check_gpu_arch] with [init_fa_override_arch],
    the [round_multiple] lambda, and of [mha_fwd] and [mha_bwd] what they
    decide on the host: the argument checks, the shapes of the tensors they
    allocate and return, the kernel instance they call and its launch
    grid.  A tensor is its dtype, its device kind, its sizes and its
    strides.  Left out: the numerical work of the device kernels, the
    random number state (lines 212-241 apart from the counter offset of
    line 220, and lines 500-510), the window sizes, which the code only
    assigns, and a failure of an allocation (an exception from the
    allocator): what is proved of [mha_fwd] and [mha_bwd] is about their
    normal returns and about the undefined behaviour they reach. *)

Module pytorch_flash.

(** ** Outcomes of host code *)

Inductive outcome (A : Type) : Type :=
| Done (a : A)           (* normal return *)
| Raise (msg : string)   (* a c10::Error is thrown *)
| Undefined.             (* undefined behaviour of C++ *)
Arguments Done {A} a.
Arguments Raise {A} msg.
Arguments Undefined {A}.

#[global] Instance outcome_ret : MRet outcome := fun A a => Done a.
#[global] Instance outcome_bind : MBind outcome := fun A B f m =>
  match m with
  | Done a => f a
  | Raise msg => Raise msg
  | Undefined => Undefined
  end.

(** [TORCH_CHECK(cond, msg)] *)
Definition TORCH_CHECK (cond : bool) (msg : string) : outcome unit :=
  if cond then Done tt else Raise msg.

(** ** C++ integers *)

Definition INT_MIN : Z := - 2 ^ 31.
Definition INT_MAX : Z := 2 ^ 31 - 1.

(** Conversion of an [int64_t] to [int] and to [unsigned int]. *)
Definition to_int (z : Z) : Z := (z + 2 ^ 31) mod 2 ^ 32 - 2 ^ 31.
Definition to_unsigned (z : Z) : Z := z mod 2 ^ 32.

(** The result of an [int] operation: overflow is undefined. *)
Definition int_result (z : Z) : outcome Z :=
  if (INT_MIN <=? z) && (z <=? INT_MAX) then Done z else Undefined.

(** [a / b] and [a % b] on [int]: truncation towards zero. *)
Definition int_div (a b : Z) : outcome Z :=
  if (b =? 0) || ((a =? INT_MIN) && (b =? -1)) then Undefined
  else Done (Z.quot a b).

Definition int_rem (a b : Z) : outcome Z :=
  if (b =? 0) || ((a =? INT_MIN) && (b =? -1)) then Undefined
  else Done (Z.rem a b).

(** [auto round_multiple = [](int x, int m) { return (x + m - 1) / m * m; };] *)
Definition round_multiple (x m : Z) : outcome Z :=
  a ← int_result (x + m);
  b ← int_result (a - 1);
  c ← int_div b m;
  int_result (c * m).

(** ** [check_gpu_arch] (lines 101-129) *)

(** An address in the memory of the process. *)
Definition pointer : Type := N.

(** The environment of the process at the moment of a call: the pointer
    that [std::getenv] returns for
    PYTORCH_DEBUG_FLASH_ATTENTION_GCN_ARCH_OVERRIDE ([None] is [nullptr]),
    and the C string that is at an address at that moment.  [std::getenv]
    hands out the address of the value inside the environment, not a
    copy: a later [c_str] can hold other bytes at the same address.  The
    addresses are taken to stay readable. *)
Record environment : Type := mkEnvironment {
  getenv : option pointer;
  c_str : pointer -> string
}.

(** The value of the variable in an environment. *)
Definition getenv_value (env : environment) : option string :=
  c_str env <$> getenv env.

(** An environment in which the variable is not set, and one in which it
    has the value [s], at address [p]. *)
Definition unset_env : environment := mkEnvironment None (fun _ => "").
Definition set_env (p : pointer) (s : string) : environment :=
  mkEnvironment (Some p) (fun _ => s).

(** The two globals of the anonymous namespace and the warnings issued. *)
Record globals : Type := mkGlobals {
  fa_gcn_arch_override_flag : bool;   (* the once flag has fired *)
  fa_override_arch : option pointer;  (* [const char*], [None] is [nullptr] *)
  warnings : list string
}.

Definition globals_at_load : globals := mkGlobals false None [].

Definition override_warning : string :=
  "ROCM flash attention backend only loads value from PYTORCH_DEBUG_FLASH_ATTENTION_GCN_ARCH_OVERRIDE once. Later changes to this environment variable with os.environ (or other methods) will not affect this backend's behavior.".

(** [init_fa_override_arch]: the pointer is stored, the string is not
    copied. *)
Definition init_fa_override_arch (env : environment) (g : globals) : globals :=
  mkGlobals (fa_gcn_arch_override_flag g) (getenv env)
    (match getenv env with
     | Some _ => warnings g ++ [override_warning]
     | None => warnings g
     end).

(** [c10::call_once(fa_gcn_arch_override_flag, init_fa_override_arch)] *)
Definition call_once_init (env : environment) (g : globals) : globals :=
  if fa_gcn_arch_override_flag g then g
  else
    let g' := init_fa_override_arch env g in
    mkGlobals true (fa_override_arch g') (warnings g').

Definition mi200 : string := "gfx90a:sramecc+:xnack-".

Definition arch_message : string :=
  "FlashAttention only supports MI200/MI250 GPUs (gfx90a:sramecc+:xnack-), current gcnArchName: ".

(** [gcnArchName] is [dprops->gcnArchName] of the current device.  The
    comparison [mi200 == fa_override_arch] and the message read the
    string that is at the stored address when the call is made. *)
Definition check_gpu_arch (env : environment) (gcnArchName : string)
    (g : globals) : outcome unit * globals :=
  let g' := call_once_init env g in
  (match fa_override_arch g' with
   | Some p =>
       let override := c_str env p in
       TORCH_CHECK (String.eqb mi200 override)
         (arch_message +:+ gcnArchName +:+ " override as " +:+ override)
   | None =>
       TORCH_CHECK (String.eqb mi200 gcnArchName)
         (arch_message +:+ gcnArchName)
   end, g').

(** The globals after a series of calls of [check_gpu_arch], each with
    the environment and the device name of its moment. *)
Fixpoint check_gpu_arch_calls (calls : list (environment * string))
    (g : globals) : globals :=
  match calls with
  | [] => g
  | c :: calls' => check_gpu_arch_calls calls' (check_gpu_arch c.1 c.2 g).2
  end.

(** ** Tensors, as far as the front end looks at them *)

Inductive ScalarType : Type :=
| kByte | kChar | kShort | kInt | kLong
| kHalf | kFloat | kDouble | kBool | kBFloat16.

#[global] Instance ScalarType_eq_dec : EqDecision ScalarType.
Proof. solve_decision. Defined.

Record Tensor : Type := mkTensor {
  dtype : ScalarType;
  is_cuda : bool;
  sizes : list Z;
  strides : list Z
}.

(** The text of the IndexError that ATen raises for a dimension out of
    range; ATen is not among the sources, the text stands for it. *)
Definition IndexError : string := "Dimension out of range".

(** [maybe_wrap_dim]: [d] counts from the end when negative. *)
Definition wrap_dim (d : Z) (n : nat) : outcome nat :=
  let n' := Z.of_nat n in
  if (- n' <=? d) && (d <? n') then Done (Z.to_nat (if d <? 0 then d + n' else d))
  else Raise IndexError.

(** [x.size(d)] and [x.stride(d)]: checked. *)
Definition size (x : Tensor) (d : Z) : outcome Z :=
  i ← wrap_dim d (length (sizes x));
  match sizes x !! i with Some z => Done z | None => Raise IndexError end.

Definition stride (x : Tensor) (d : Z) : outcome Z :=
  i ← wrap_dim d (length (strides x));
  match strides x !! i with Some z => Done z | None => Raise IndexError end.

(** [sizes[i]] on an [IntArrayRef]: not checked. *)
Definition at_index (l : list Z) (i : nat) : outcome Z :=
  match l !! i with Some z => Done z | None => Undefined end.

(** The sizes of [x.permute({0,2,1,3}).contiguous()]. *)
Definition permute_0213 (l : list Z) : outcome (list Z) :=
  match l with
  | [a; b; c; d] => Done [a; c; b; d]
  | _ => Raise "permute: number of dims don't match in permute"
  end.

(** [#define CHECK_DEVICE(x)], [#define CHECK_SHAPE(x, ...)] (lines 131-132);
    [name] and [args] are the stringized macro arguments. *)
Definition CHECK_DEVICE (x : Tensor) (name : string) : outcome unit :=
  TORCH_CHECK (is_cuda x) (name +:+ " must be on CUDA").

Definition CHECK_SHAPE (x : Tensor) (shape : list Z) (name args : string)
    : outcome unit :=
  TORCH_CHECK (bool_decide (sizes x = shape))
    (name +:+ " must have shape (" +:+ args +:+ ")").

Definition half_or_bfloat16 (t : ScalarType) : bool :=
  bool_decide (t = kHalf) || bool_decide (t = kBFloat16).

(** [dim3] *)
Record dim3 : Type := mkDim3 { dim_x : Z; dim_y : Z; dim_z : Z }.

(** [dim3 block { 64 * 4, 1, 1 };] *)
Definition block : dim3 := mkDim3 (64 * 4) 1 1.

Definition BLOCK_M : Z := 16.
Definition BLOCK_N : Z := 16.

(** [at::empty(shape, ...)]: the sizes of the new tensor, when the
    allocation succeeds.  ATen is not among the sources: of its failures
    the negative size is here, a failure of the allocation (too many
    elements, no memory) is not. *)
Definition empty (shape : list Z) : outcome (list Z) :=
  if forallb (Z.leb 0) shape then Done shape
  else Raise "Trying to create tensor with negative dimension".

(** ** [mha_fwd] (lines 135-336) *)

(** An instantiation [oort::attn_fwd<STAGE, BLOCK_M, BLOCK_DMODEL,
    BLOCK_N, pre_load_v, ENABLE_DROPOUT, RETURN_ENCODED_SOFTMAX>] called
    on data of type [FP]. *)
Record fwd_kernel : Type := CALL_FWD {
  fwd_FP : ScalarType;
  fwd_STAGE : Z;
  fwd_BLOCK_M : Z;
  fwd_BLOCK_DMODEL : Z;
  fwd_BLOCK_N : Z;
  fwd_pre_load_v : bool;
  fwd_ENABLE_DROPOUT : bool;
  fwd_RETURN_ENCODED_SOFTMAX : bool
}.

Definition kFwdUseCausal : Z := 3.
Definition kFwdNoCausal : Z := 1.

(** The chain [if (d_head == 16) ... else if (d_head == 128) ...] that
    each of the four dtype and causal branches repeats (lines 286-327). *)
Definition fwd_by_d_head (FP : ScalarType) (STAGE d_head : Z) : option fwd_kernel :=
  if d_head =? 16 then Some (CALL_FWD FP STAGE BLOCK_M 16 BLOCK_N true true true)
  else if d_head =? 32 then Some (CALL_FWD FP STAGE BLOCK_M 32 BLOCK_N true true true)
  else if d_head =? 64 then Some (CALL_FWD FP STAGE BLOCK_M 64 BLOCK_N true true true)
  else if d_head =? 128 then Some (CALL_FWD FP STAGE BLOCK_M 128 BLOCK_N true true true)
  else None.

Definition fwd_dispatch (q_dtype : ScalarType) (is_causal : bool) (d_head : Z)
    : option fwd_kernel :=
  if bool_decide (q_dtype = kHalf) then
    if is_causal then fwd_by_d_head kHalf kFwdUseCausal d_head
    else fwd_by_d_head kHalf kFwdNoCausal d_head
  else if bool_decide (q_dtype = kBFloat16) then
    if is_causal then fwd_by_d_head kBFloat16 kFwdUseCausal d_head
    else fwd_by_d_head kBFloat16 kFwdNoCausal d_head
  else None.

Record fwd_args : Type := mkFwdArgs {
  q : Tensor;
  k : Tensor;
  v : Tensor;
  out_ : option Tensor;
  is_dropout : bool;       (* [p_dropout > 0.0] *)
  is_causal : bool
}.

(** The sizes of the eight returned tensors, in the order of the return
    statement ([seed_t] and [offset_t] are 0-dimensional), and the kernel
    called with its grid, if one is called. *)
Record fwd_result : Type := mkFwdResult {
  fwd_out : list Z;
  fwd_q_padded : list Z;
  fwd_k_padded : list Z;
  fwd_v_padded : list Z;
  fwd_softmax_lse : list Z;
  fwd_softmax_fa : list Z;
  fwd_launch : option (fwd_kernel * dim3)
}.

(** [mha_fwd] after its call of [check_gpu_arch]. *)
Definition mha_fwd_checks (a : fwd_args) : outcome fwd_result :=
  let q_dtype := dtype (q a) in
  TORCH_CHECK (half_or_bfloat16 q_dtype)
    "FlashAttention only support fp16 and bf16 data type";;
  TORCH_CHECK (bool_decide (dtype (k a) = q_dtype))
    "query and key must have the same dtype";;
  TORCH_CHECK (bool_decide (dtype (v a) = q_dtype))
    "query and value must have the same dtype";;
  CHECK_DEVICE (q a) "q";; CHECK_DEVICE (k a) "k";; CHECK_DEVICE (v a) "v";;
  sq ← stride (q a) (-1);
  TORCH_CHECK (sq =? 1) "Input tensor must have contiguous last dimension";;
  sk ← stride (k a) (-1);
  TORCH_CHECK (sk =? 1) "Input tensor must have contiguous last dimension";;
  sv ← stride (v a) (-1);
  TORCH_CHECK (sv =? 1) "Input tensor must have contiguous last dimension";;
  s0 ← at_index (sizes (q a)) 0;
  s1 ← at_index (sizes (q a)) 1;
  s2 ← at_index (sizes (q a)) 2;
  s3 ← at_index (sizes (q a)) 3;
  let batch_size := to_int s0 in
  let seqlen_q := to_int s1 in
  let num_heads := to_int s2 in
  let head_size_og := to_int s3 in
  k1 ← size (k a) 1;
  k2 ← size (k a) 2;
  let seqlen_k := to_int k1 in
  let num_heads_k := to_int k2 in
  TORCH_CHECK (0 <? batch_size) "batch size must be positive";;
  r8 ← int_rem head_size_og 8;
  TORCH_CHECK (r8 =? 0)
    "head_size must be a multiple of 8, this is ensured by padding!";;
  TORCH_CHECK (head_size_og <=? 256)
    "FlashAttention forward only supports head dimension at most 256";;
  rh ← int_rem num_heads num_heads_k;
  TORCH_CHECK (rh =? 0)
    "Number of heads in key/value must divide number of heads in query";;
  let is_causal := if seqlen_q =? 1 then false else is_causal a in
  CHECK_SHAPE (q a) [batch_size; seqlen_q; num_heads; head_size_og]
    "q" "batch_size, seqlen_q, num_heads, head_size_og";;
  CHECK_SHAPE (k a) [batch_size; seqlen_k; num_heads_k; head_size_og]
    "k" "batch_size, seqlen_k, num_heads_k, head_size_og";;
  CHECK_SHAPE (v a) [batch_size; seqlen_k; num_heads_k; head_size_og]
    "v" "batch_size, seqlen_k, num_heads_k, head_size_og";;
  out ← match out_ a with
        | Some out =>
            TORCH_CHECK (bool_decide (dtype out = q_dtype))
              "Output must have the same dtype as inputs";;
            CHECK_DEVICE out "out";;
            so ← stride out (-1);
            TORCH_CHECK (so =? 1)
              "Output tensor must have contiguous last dimension";;
            CHECK_SHAPE out [batch_size; seqlen_q; num_heads; head_size_og]
              "out" "batch_size, seqlen_q, num_heads, head_size_og";;
            r ← int_rem head_size_og 8;
            if negb (r =? 0) then Done (sizes (q a)) (* at::empty_like(q_padded) *)
            else Done (sizes out)
        | None => Done (sizes (q a)) (* at::empty_like(q_padded) *)
        end;
  head_size ← round_multiple head_size_og 8;
  head_size_rounded ← round_multiple head_size 32;
  seqlen_q_rounded ← round_multiple seqlen_q 128;
  seqlen_k_rounded ← round_multiple seqlen_k 128;
  (* int64_t counter_offset = batch_size * num_heads * 32; *)
  counter_offset ← (if is_dropout a then
                      bh ← int_result (batch_size * num_heads);
                      int_result (bh * 32)
                    else Done 0);
  q_t ← permute_0213 (sizes (q a));
  k_t ← permute_0213 (sizes (k a));
  v_t ← permute_0213 (sizes (v a));
  output_t ← permute_0213 out;
  M ← empty [batch_size; num_heads; seqlen_q];
  qt2 ← at_index q_t 2;
  qt0 ← at_index q_t 0;
  qt1 ← at_index q_t 1;
  let grid := mkDim3 (to_unsigned (Z.quot (qt2 + BLOCK_M - 1) BLOCK_M))
                     (to_unsigned (qt0 * qt1)) 1 in
  softmax_fa_t ← empty [batch_size; num_heads; seqlen_q; seqlen_k];
  qt3 ← at_index q_t 3;
  let d_head := to_int qt3 in
  let launch := fwd_dispatch q_dtype is_causal d_head in
  q_padded ← permute_0213 q_t;
  k_padded ← permute_0213 k_t;
  v_padded ← permute_0213 v_t;
  out' ← permute_0213 output_t;
  Done (mkFwdResult out' q_padded k_padded v_padded M softmax_fa_t
          (match launch with
           | Some kern => Some (kern, grid)
           | None => None
           end)).

Definition mha_fwd (env : environment) (gcnArchName : string)
    (g : globals) (a : fwd_args) : outcome fwd_result * globals :=
  let r := check_gpu_arch env gcnArchName g in
  (r.1 ;; mha_fwd_checks a, r.2).


(** ** [mha_bwd] (lines 369-654) *)

(** The kernels [mha_bwd] calls, with their template arguments, the type
    [FP] of the data and the grid. *)
Inductive bwd_kernel : Type :=
| CALL_BWD_PP (FP : ScalarType) (PP_BLOCK PP_DMODEL : Z) (pp_grid : dim3)
| bwd_kernel_dk_dv (FP : ScalarType) (BLOCK_M BLOCK_DMODEL BLOCK_N : Z)
    (CAUSAL ENABLE_DROPOUT : bool) (grid : dim3)
| bwd_kernel_dq (FP : ScalarType) (BLOCK_M BLOCK_DMODEL BLOCK_N : Z)
    (CAUSAL ENABLE_DROPOUT : bool) (grid : dim3).

Record bwd_args : Type := mkBwdArgs {
  b_dout : Tensor;
  b_q : Tensor;
  b_k : Tensor;
  b_v : Tensor;
  b_out : Tensor;
  b_softmax_lse : Tensor;
  dq_ : option Tensor;
  dk_ : option Tensor;
  dv_ : option Tensor;
  b_is_dropout : bool;     (* [p_dropout > 0.0] *)
  b_is_causal : bool
}.

(** The sizes of the four returned tensors and the kernels called, in
    the order of the calls. *)
Record bwd_result : Type := mkBwdResult {
  bwd_dq : list Z;
  bwd_dk : list Z;
  bwd_dv : list Z;
  bwd_softmax_d : list Z;
  bwd_launches : list bwd_kernel
}.

(** The block the code repeats for [dq_], [dk_] and [dv_] (lines
    441-470): a gradient that was passed is checked, a missing one is
    [at::empty_like(like)]; the result is the sizes of the gradient. *)
Definition grad_or_empty_like (g_ : option Tensor) (q_dtype : ScalarType)
    (shape : list Z) (like : Tensor) (name args : string) : outcome (list Z) :=
  match g_ with
  | Some g =>
      TORCH_CHECK (bool_decide (dtype g = q_dtype))
        (name +:+ " must have the same dtype as q");;
      CHECK_DEVICE g name;;
      s ← stride g (-1);
      TORCH_CHECK (s =? 1) (name +:+ " must have contiguous last dimension");;
      CHECK_SHAPE g shape name args;;
      Done (sizes g)
  | None => Done (sizes like)
  end.

(** [CALL_BWD_PP_DMODEL(FP, 16)] (lines 548-566): both branches on
    [seqlen_q >= 64] are this call. *)
Definition bwd_pp_by_d_head (FP : ScalarType) (PP_BLOCK d_head : Z)
    (batch_size num_heads dout_t_size2 : Z) : outcome (list bwd_kernel) :=
  let call PP_DMODEL :=
    bh ← int_result (batch_size * num_heads);
    Done [CALL_BWD_PP FP PP_BLOCK PP_DMODEL
            (mkDim3 (to_unsigned (bh * Z.quot (dout_t_size2 + PP_BLOCK - 1) PP_BLOCK))
                    1 1)] in
  if d_head =? 16 then call 16
  else if d_head =? 32 then call 32
  else if d_head =? 64 then call 64
  else if d_head =? 128 then call 128
  else Done [].

(** [CALL_BWD_DROPOUT_DMODEL(FP, 16, 16, CAUSAL)] (lines 573-639). *)
Definition bwd_by_d_head (FP : ScalarType) (BLOCK_M BLOCK_N : Z) (CAUSAL : bool)
    (is_dropout : bool) (d_head batch_size num_heads seqlen_q seqlen_k : Z)
    : outcome (list bwd_kernel) :=
  let call BLOCK_DMODEL ENABLE_DROPOUT :=
    a ← int_result (seqlen_k + BLOCK_M);
    b ← int_result (a - 1);
    gx ← int_div b BLOCK_M;
    gy ← int_result (batch_size * num_heads);
    a' ← int_result (seqlen_q + BLOCK_M);
    b' ← int_result (a' - 1);
    gx' ← int_div b' BLOCK_M;
    Done [bwd_kernel_dk_dv FP BLOCK_M BLOCK_DMODEL BLOCK_N CAUSAL ENABLE_DROPOUT
            (mkDim3 (to_unsigned gx) (to_unsigned gy) 1);
          bwd_kernel_dq FP BLOCK_M BLOCK_DMODEL BLOCK_N CAUSAL ENABLE_DROPOUT
            (mkDim3 (to_unsigned gx') (to_unsigned gy) 1)] in
  let dropout BLOCK_DMODEL :=
    if is_dropout then call BLOCK_DMODEL true else call BLOCK_DMODEL false in
  if d_head =? 16 then dropout 16
  else if d_head =? 32 then dropout 32
  else if d_head =? 64 then dropout 64
  else if d_head =? 128 then dropout 128
  else Done [].

(** [mha_bwd] after its call of [check_gpu_arch]. *)
Definition mha_bwd_checks (a : bwd_args) : outcome bwd_result :=
  let q_dtype := dtype (b_q a) in
  TORCH_CHECK (half_or_bfloat16 q_dtype)
    "FlashAttention only support fp16 and bf16 data type";;
  TORCH_CHECK (bool_decide (dtype (b_k a) = q_dtype))
    "query and key must have the same dtype";;
  TORCH_CHECK (bool_decide (dtype (b_v a) = q_dtype))
    "query and value must have the same dtype";;
  TORCH_CHECK (bool_decide (dtype (b_out a) = q_dtype))
    "query and out must have the same dtype";;
  TORCH_CHECK (bool_decide (dtype (b_dout a) = q_dtype))
    "query and dout must have the same dtype";;
  CHECK_DEVICE (b_q a) "q";; CHECK_DEVICE (b_k a) "k";; CHECK_DEVICE (b_v a) "v";;
  CHECK_DEVICE (b_out a) "out";; CHECK_DEVICE (b_dout a) "dout";;
  CHECK_DEVICE (b_softmax_lse a) "softmax_lse";;
  sq ← stride (b_q a) (-1);
  TORCH_CHECK (sq =? 1) "Input tensor must have contiguous last dimension";;
  sk ← stride (b_k a) (-1);
  TORCH_CHECK (sk =? 1) "Input tensor must have contiguous last dimension";;
  sv ← stride (b_v a) (-1);
  TORCH_CHECK (sv =? 1) "Input tensor must have contiguous last dimension";;
  so ← stride (b_out a) (-1);
  TORCH_CHECK (so =? 1) "out tensor must have contiguous last dimension";;
  sd ← stride (b_dout a) (-1);
  TORCH_CHECK (sd =? 1) "dout tensor must have contiguous last dimension";;
  s0 ← at_index (sizes (b_q a)) 0;
  s1 ← at_index (sizes (b_q a)) 1;
  s2 ← at_index (sizes (b_q a)) 2;
  d3 ← size (b_dout a) 3;
  s3 ← at_index (sizes (b_q a)) 3;
  k1 ← size (b_k a) 1;
  k2 ← size (b_k a) 2;
  let batch_size := to_int s0 in
  let seqlen_q := to_int s1 in
  let num_heads := to_int s2 in
  let head_size_og := to_int d3 in
  let head_size := to_int s3 in
  let seqlen_k := to_int k1 in
  let num_heads_k := to_int k2 in
  (if b_is_causal a then
     TORCH_CHECK (seqlen_q =? seqlen_k)
       "For backwards kernel seqlen_q must equal seqlen_k for causal kernels"
   else Done tt);;
  TORCH_CHECK (0 <? batch_size) "batch size must be positive";;
  r8 ← int_rem head_size 8;
  TORCH_CHECK (r8 =? 0) "head_size should be a multiple of 8";;
  r8' ← int_rem head_size_og 8;
  TORCH_CHECK (r8' =? 0)
    "head_size_og should be a multiple of 8, this is ensured by padding!";;
  TORCH_CHECK (head_size <=? 256)
    "FlashAttention backward only supports head dimension at most 256";;
  rh ← int_rem num_heads num_heads_k;
  TORCH_CHECK (rh =? 0)
    "Number of heads in key/value must divide number of heads in query";;
  head_size_rounded ← round_multiple head_size 32;
  seqlen_q_rounded ← round_multiple seqlen_q 128;
  seqlen_k_rounded ← round_multiple seqlen_k 128;
  hs8 ← round_multiple head_size_og 8;
  TORCH_CHECK (head_size =? hs8)
    "head_size must be head_size_og rounded to a multiple of 8";;
  CHECK_SHAPE (b_q a) [batch_size; seqlen_q; num_heads; head_size]
    "q" "batch_size, seqlen_q, num_heads, head_size";;
  CHECK_SHAPE (b_k a) [batch_size; seqlen_k; num_heads_k; head_size]
    "k" "batch_size, seqlen_k, num_heads_k, head_size";;
  CHECK_SHAPE (b_v a) [batch_size; seqlen_k; num_heads_k; head_size]
    "v" "batch_size, seqlen_k, num_heads_k, head_size";;
  CHECK_SHAPE (b_out a) [batch_size; seqlen_q; num_heads; head_size]
    "out" "batch_size, seqlen_q, num_heads, head_size";;
  CHECK_SHAPE (b_dout a) [batch_size; seqlen_q; num_heads; head_size_og]
    "dout" "batch_size, seqlen_q, num_heads, head_size_og";;
  dq ← grad_or_empty_like (dq_ a) q_dtype
         [batch_size; seqlen_q; num_heads; head_size] (b_q a)
         "dq" "batch_size, seqlen_q, num_heads, head_size";
  dk ← grad_or_empty_like (dk_ a) q_dtype
         [batch_size; seqlen_k; num_heads_k; head_size] (b_k a)
         "dk" "batch_size, seqlen_k, num_heads_k, head_size";
  dv ← grad_or_empty_like (dv_ a) q_dtype
         [batch_size; seqlen_k; num_heads_k; head_size] (b_k a)
         "dv" "batch_size, seqlen_k, num_heads_k, head_size";
  softmax_d ← empty [batch_size; num_heads; seqlen_q_rounded];
  dq_accum ← empty [batch_size; seqlen_q_rounded; num_heads; head_size_rounded];
  dk_expanded ←
    (if negb (num_heads_k =? num_heads) then
       e ← empty [batch_size; seqlen_k; num_heads; head_size];
       empty [batch_size; seqlen_k; num_heads; head_size]
     else Done dk);
  q_t ← permute_0213 (sizes (b_q a));
  k_t ← permute_0213 (sizes (b_k a));
  v_t ← permute_0213 (sizes (b_v a));
  out_t ← permute_0213 (sizes (b_out a));
  dq_t ← permute_0213 dq;
  dk_t ← permute_0213 dk;
  dv_t ← permute_0213 dv;
  dout_t ← permute_0213 (sizes (b_dout a));
  let d_head := head_size_og in
  dout_t2 ← at_index dout_t 2;
  pp ← (if bool_decide (q_dtype = kHalf) then
          bwd_pp_by_d_head kHalf 16 d_head batch_size num_heads dout_t2
        else if bool_decide (q_dtype = kBFloat16) then
          bwd_pp_by_d_head kBFloat16 16 d_head batch_size num_heads dout_t2
        else Done []);
  bw ← (if bool_decide (q_dtype = kHalf) then
          bwd_by_d_head kHalf 16 16 (b_is_causal a) (b_is_dropout a)
            d_head batch_size num_heads seqlen_q seqlen_k
        else if bool_decide (q_dtype = kBFloat16) then
          bwd_by_d_head kBFloat16 16 16 (b_is_causal a) (b_is_dropout a)
            d_head batch_size num_heads seqlen_q seqlen_k
        else Done []);
  dq' ← permute_0213 dq_t;
  dk' ← permute_0213 dk_t;
  dv' ← permute_0213 dv_t;
  Done (mkBwdResult dq' dk' dv' softmax_d (pp ++ bw)).

Definition mha_bwd (env : environment) (gcnArchName : string)
    (g : globals) (a : bwd_args) : outcome bwd_result * globals :=
  let r := check_gpu_arch env gcnArchName g in
  (r.1 ;; mha_bwd_checks a, r.2).

End pytorch_flash.

(** ** Sanity checks of the embedding on concrete runs *)

Example timeout_ns_50ms : timeout_ns_of 50 = 50000000.
Proof. reflexivity. Qed.

Example timeout_ns_agrees_with_binary64 :
  SF_to_Z (timeout_ns_SF 50) = Some (timeout_ns_of 50) /\
  SF_to_Z (timeout_ns_SF 576460752305) = Some (timeout_ns_of 576460752305) /\
  SF_to_Z (timeout_ns_SF 18446744073709) = Some (timeout_ns_of 18446744073709).
Proof. repeat split; vm_compute; reflexivity. Qed.

(** Scenario A of the spec: 50 ms, nobody aborts. *)
Example scenario_A :
  status (run (launched (0, 0) 50)
            [(0, Device); (10, Device); (20, Device); (30, Device);
             (1000040, Device); (50000050, Device); (50000060, Device)])
  = TIMED_OUT.
Proof. reflexivity. Qed.

(** Scenario B of the spec: no timeout, abort at once. *)
Example scenario_B :
  status (run (launched (0, 0) 0)
            [(0, HostAbort); (5, Device); (10, Device); (20, Device)])
  = ABORTED.
Proof. reflexivity. Qed.

(** * Basic facts *)

(** ** The conversion to nanoseconds *)

Lemma round_double_small n : 0 <= n < 2 ^ 53 -> round_double n = n.
Proof.
  intros [H0 H1]. unfold round_double.
  assert (Z.log2 n <= 52) as Hl.
  { destruct (Z.eq_dec n 0) as [->|Hn]; [simpl; lia|].
    assert (Z.log2 n < 53) by (apply Z.log2_lt_pow2; lia). lia. }
  destruct (Z.leb_spec (Z.log2 n - 52) 0); [reflexivity | lia].
Qed.

Lemma round_double_times_64 m : 0 <= m < 2 ^ 53 -> round_double (m * 64) = m * 64.
Proof.
  intros [H0 H1]. unfold round_double.
  destruct (Z.leb_spec (Z.log2 (m * 64) - 52) 0) as [|He]; [reflexivity|].
  assert (0 < m * 64) as Hpos.
  { destruct (Z.eq_dec m 0) as [->|]; [|lia]. simpl in He. lia. }
  set (e := Z.log2 (m * 64) - 52) in *.
  assert (Z.log2 (m * 64) < 59) as Hl by (apply Z.log2_lt_pow2; lia).
  assert (m * 64 = (m * 2 ^ (6 - e)) * 2 ^ e) as Hn.
  { rewrite <- Z.mul_assoc, <- Z.pow_add_r by lia.
    replace (6 - e + e) with 6 by lia. reflexivity. }
  assert (0 < 2 ^ e) by (apply Z.pow_pos_nonneg; lia).
  assert (0 < 2 ^ (e - 1)) as Hh by (apply Z.pow_pos_nonneg; lia).
  cbv zeta. rewrite Hn.
  rewrite Z.mod_mul, Z.div_mul by lia.
  destruct (Z.ltb_spec 0 (2 ^ (e - 1))); [reflexivity | lia].
Qed.

Lemma timeout_ns_exact t :
  0 <= t -> t * 15625 < 2 ^ 53 -> timeout_ns_of t = t * 1000000.
Proof.
  intros H0 H1. unfold timeout_ns_of.
  rewrite (round_double_small t) by lia.
  replace (t * 1000000) with (t * 15625 * 64) by lia.
  rewrite round_double_times_64 by lia.
  unfold double_to_size_t.
  destruct (Z.ltb_spec (t * 15625 * 64) (2 ^ 64)); [reflexivity | lia].
Qed.

Lemma timeout_ns_zero : timeout_ns_of 0 = 0.
Proof. reflexivity. Qed.

(** ** The two tensor words *)

Lemma item_insert_same (c : list Z) (i : nat) v :
  (i < length c)%nat -> item (<[i := v]> c) i = v.
Proof. intros H. unfold item. by rewrite list_lookup_insert_eq. Qed.

Lemma item_insert_other (c : list Z) (i j : nat) v :
  i <> j -> item (<[i := v]> c) j = item c j.
Proof. intros H. unfold item. by rewrite list_lookup_insert_ne. Qed.

Lemma two_words (c : list Z) :
  length c = 2%nat -> c = [item c 0; item c 1].
Proof. destruct c as [|a [|b [|? ?]]]; simpl; intros; try discriminate; done. Qed.

(** ** Host calls *)

Lemma status_abort s : status (abort s) = status s.
Proof. unfold status, abort; simpl. by rewrite item_insert_other. Qed.

Lemma flag_abort s :
  length (comm_ s) = 2%nat -> item (comm_ (abort s)) 0 = 1.
Proof. intros H. unfold abort; simpl. apply item_insert_same. lia. Qed.

Lemma abort_abort s : abort (abort s) = abort s.
Proof. unfold abort; simpl. by rewrite list_insert_insert_eq. Qed.

Lemma abort_when_set s :
  length (comm_ s) = 2%nat -> item (comm_ s) 0 = 1 -> abort s = s.
Proof.
  intros Hl Hf. destruct s as [c t k w]; unfold abort; simpl in *.
  f_equal. rewrite (two_words c Hl), Hf. reflexivity.
Qed.

Lemma step_host_abort s t : step s (t, HostAbort) = abort s.
Proof. reflexivity. Qed.

Lemma step_host_status s t : step s (t, HostStatus) = s.
Proof. reflexivity. Qed.

Lemma step_device s t : step s (t, Device) = kernel_barrier_step t s.
Proof. reflexivity. Qed.

Lemma run_app s tr1 tr2 : run s (tr1 ++ tr2) = run (run s tr1) tr2.
Proof. apply foldl_app. Qed.

Lemma run_cons s te tr : run s (te :: tr) = run (step s te) tr.
Proof. reflexivity. Qed.

(** ** Device stores *)

Lemma status_store v pc s :
  length (comm_ s) = 2%nat -> status (store_status v pc s) = v.
Proof. intros H. unfold status, store_status; simpl. apply item_insert_same. lia. Qed.

Lemma flag_store v pc s :
  item (comm_ (store_status v pc s)) 0 = item (comm_ s) 0.
Proof. unfold store_status; simpl. by rewrite item_insert_other. Qed.

Lemma length_store v pc s :
  length (comm_ (store_status v pc s)) = length (comm_ s).
Proof. unfold store_status; simpl. apply length_insert. Qed.

Lemma length_abort s : length (comm_ (abort s)) = length (comm_ s).
Proof. unfold abort; simpl. apply length_insert. Qed.

(** ** The invariant holds along every run *)

Section Invariant.
Variable w1 : Z.

Lemma consistent_launched w0 t : consistent w1 (launched (w0, w1) t).
Proof. split; [reflexivity | split; reflexivity]. Qed.

Lemma consistent_abort s : consistent w1 s -> consistent w1 (abort s).
Proof.
  intros [Hl Hk]. split; [by rewrite length_abort|].
  rewrite status_abort. change (kernel (abort s)) with (kernel s).
  change (dev_writes (abort s)) with (dev_writes s).
  change (timeout_ms (abort s)) with (timeout_ms s).
  destruct (kernel s); try exact Hk.
  destruct Hk as [Hk | (Hw & Hs & _)]; [left; exact Hk | right].
  repeat split; try done. by apply flag_abort.
Qed.

Lemma consistent_kernel_step c s :
  consistent w1 s -> consistent w1 (kernel_barrier_step c s).
Proof.
  intros [Hl Hk]. unfold consistent.
  unfold kernel_barrier_step.
  destruct (kernel s) eqn:Hpc.
  - (* Queued *)
    destruct Hk as [Hw Hs].
    rewrite length_store, status_store by done. simpl. rewrite Hw. done.
  - (* Started *)
    split; [done|]. simpl. exact Hk.
  - (* LoopTop *)
    destruct Hk as [Hw Hs].
    destruct (item (comm_ s) 0 =? 1) eqn:Hf.
    + rewrite length_store, status_store, flag_store by done. simpl.
      rewrite Hw. apply Z.eqb_eq in Hf. split; [done|]. right. done.
    + destruct (0 <? timeout_ms s) eqn:Ht; (split; [done|]); simpl.
      * apply Z.ltb_lt in Ht. done.
      * done.
  - (* TimeCheck *)
    destruct Hk as (Hw & Hs & Ht).
    destruct (timeout_ns_of (timeout_ms s) <? size_t_sub (to_size_t c) start).
    + rewrite length_store, status_store by done. simpl.
      rewrite Hw. split; [done|]. left. done.
    + split; [done|]. simpl. done.
  - (* Nanosleep *)
    split; [done|]. simpl. exact Hk.
  - (* Returned *)
    split; [done|]. rewrite Hpc. exact Hk.
Qed.

Lemma consistent_step s te : consistent w1 s -> consistent w1 (step s te).
Proof.
  destruct te as [t []]; intros H.
  - by apply consistent_abort.
  - exact H.
  - by apply consistent_kernel_step.
Qed.

Lemma consistent_run tr : forall s, consistent w1 s -> consistent w1 (run s tr).
Proof.
  induction tr as [|te tr IH]; intros s H; [exact H|].
  rewrite run_cons. apply IH. by apply consistent_step.
Qed.
End Invariant.

Lemma consistent_reachable w t tr : consistent w.2 (run (launched w t) tr).
Proof. destruct w as [w0 w1]. apply consistent_run, consistent_launched. Qed.

(** ** What a step can and cannot change *)

Ltac step_cases s :=
  unfold kernel_barrier_step;
  destruct (kernel s); try reflexivity;
  repeat match goal with
    | |- context [if ?b then _ else _] => destruct b
    end; try reflexivity.

Lemma timeout_kernel_step c s : timeout_ (kernel_barrier_step c s) = timeout_ s.
Proof. step_cases s. Qed.

Lemma length_kernel_step c s :
  length (comm_ (kernel_barrier_step c s)) = length (comm_ s).
Proof. step_cases s; apply length_store. Qed.

Lemma flag_kernel_step c s :
  item (comm_ (kernel_barrier_step c s)) 0 = item (comm_ s) 0.
Proof. step_cases s; apply flag_store. Qed.

Lemma timeout_step s te : timeout_ (step s te) = timeout_ s.
Proof. destruct te as [t []]; try reflexivity. apply timeout_kernel_step. Qed.

Lemma length_step s te : length (comm_ (step s te)) = length (comm_ s).
Proof.
  destruct te as [t []]; try reflexivity.
  - apply length_abort.
  - apply length_kernel_step.
Qed.

Lemma timeout_run tr : forall s, timeout_ (run s tr) = timeout_ s.
Proof.
  induction tr as [|te tr IH]; intros s; [reflexivity|].
  rewrite run_cons, IH. apply timeout_step.
Qed.

Lemma length_run tr : forall s, length (comm_ (run s tr)) = length (comm_ s).
Proof.
  induction tr as [|te tr IH]; intros s; [reflexivity|].
  rewrite run_cons, IH. apply length_step.
Qed.

(** Once set, the abort word stays set: nothing writes another value. *)
Lemma flag_step s te :
  length (comm_ s) = 2%nat -> item (comm_ s) 0 = 1 ->
  item (comm_ (step s te)) 0 = 1.
Proof.
  intros Hl Hf. destruct te as [t []].
  - by apply flag_abort.
  - exact Hf.
  - rewrite step_device, flag_kernel_step. exact Hf.
Qed.

Lemma flag_run tr : forall s,
  length (comm_ s) = 2%nat -> item (comm_ s) 0 = 1 ->
  item (comm_ (run s tr)) 0 = 1.
Proof.
  induction tr as [|te tr IH]; intros s Hl Hf; [exact Hf|].
  rewrite run_cons. apply IH; [by rewrite length_step | by apply flag_step].
Qed.

(** Without an [abort()] call the abort word keeps its value. *)
Lemma flag_run_no_abort tr : forall s,
  Forall (fun te => te.2 <> HostAbort) tr ->
  item (comm_ (run s tr)) 0 = item (comm_ s) 0.
Proof.
  induction tr as [|te tr IH]; intros s H; [reflexivity|].
  inversion H as [|? ? Hte Htr]; subst.
  rewrite run_cons, IH by exact Htr.
  destruct te as [t []]; simpl in *; try reflexivity; [done|].
  apply flag_kernel_step.
Qed.

(** Host calls never write the status word and never move the kernel. *)
Lemma status_step_host s te : te.2 <> Device -> status (step s te) = status s.
Proof.
  destruct te as [t []]; simpl; intros H; try done. apply status_abort.
Qed.

Lemma kernel_step_host s te : te.2 <> Device -> kernel (step s te) = kernel s.
Proof. destruct te as [t []]; simpl; intros H; done. Qed.

Lemma dev_writes_step_host s te :
  te.2 <> Device -> dev_writes (step s te) = dev_writes s.
Proof. destruct te as [t []]; simpl; intros H; done. Qed.

Lemma host_only_run tr : forall s,
  host_only tr ->
  status (run s tr) = status s /\ kernel (run s tr) = kernel s /\
  dev_writes (run s tr) = dev_writes s.
Proof.
  induction tr as [|te tr IH]; intros s H; [done|].
  inversion H as [|? ? Hte Htr]; subst.
  rewrite run_cons. destruct (IH (step s te) Htr) as (-> & -> & ->).
  by rewrite status_step_host, kernel_step_host, dev_writes_step_host.
Qed.

Lemma host_only_observations tr : forall s,
  host_only tr -> Forall (fun v => v = status s) (observations s tr).
Proof.
  induction tr as [|te tr IH]; intros s H; [constructor|].
  inversion H as [|? ? Hte Htr]; subst.
  specialize (IH (step s te) Htr). rewrite status_step_host in IH by done.
  destruct te as [t []]; simpl in *; try done. by constructor.
Qed.

(** After the kernel has returned nothing it owns changes any more. *)
Lemma returned_step s te :
  kernel s = Returned ->
  kernel (step s te) = Returned /\ status (step s te) = status s /\
  dev_writes (step s te) = dev_writes s.
Proof.
  intros Hk. destruct te as [t []].
  - rewrite step_host_abort, status_abort. done.
  - done.
  - rewrite step_device. unfold kernel_barrier_step. rewrite Hk. done.
Qed.

Lemma returned_run tr : forall s,
  kernel s = Returned ->
  kernel (run s tr) = Returned /\ status (run s tr) = status s /\
  dev_writes (run s tr) = dev_writes s.
Proof.
  induction tr as [|te tr IH]; intros s Hk; [done|].
  destruct (returned_step s te Hk) as (Hk' & Hs & Hw).
  rewrite run_cons. destruct (IH _ Hk') as (-> & -> & ->). done.
Qed.

Lemma returned_observations tr : forall s,
  kernel s = Returned -> Forall (fun v => v = status s) (observations s tr).
Proof.
  induction tr as [|te tr IH]; intros s Hk; [constructor|].
  destruct (returned_step s te Hk) as (Hk' & Hs & _).
  specialize (IH _ Hk'). rewrite Hs in IH.
  destruct te as [t []]; simpl in *; try done. by constructor.
Qed.

(** * Construction and [status()] *)

(** C1 (code defect): the constructor takes its tensor from [at::empty],
    which does not write the storage, and launches the kernel on it.
    Until the kernel executes its first statement [status()] returns the
    word that happened to be in the storage: for every int32 value there
    is a successful construction after which [status()] returns it, and
    with the stale words (0, 2) a baton of 50 ms reports TIMED_OUT, not
    UNKNOWN, before its loop has begun. *)
Theorem status_before_loop_is_stale :
  (forall (w : Z * Z) (t : Z) (tr : list (Z * event)),
      host_only tr ->
      Baton_ctor (mkRuntime (Some w) false) t = Ok (launched w t) /\
      kernel (run (launched w t) tr) = Queued /\
      status (run (launched w t) tr) = w.2) /\
  Baton_ctor (mkRuntime (Some (0, 2)) false) 50 = Ok (launched (0, 2) 50) /\
  kernel (launched (0, 2) 50) = Queued /\
  status (launched (0, 2) 50) = TIMED_OUT /\
  status (launched (0, 2) 50) <> UNKNOWN.
Proof.
  split; [|by repeat split].
  intros w t tr H. destruct (host_only_run tr (launched w t) H) as (-> & -> & _).
  done.
Qed.

(** What C1 asks does hold on a storage that was zero: [status()] is
    UNKNOWN as long as the kernel has not started. *)
Lemma status_unknown_on_zeroed_storage (w0 t : Z) (tr : list (Z * event)) :
  host_only tr -> status (run (launched (w0, 0) t) tr) = UNKNOWN.
Proof.
  intros H. by destruct (host_only_run tr (launched (w0, 0) t) H) as (-> & _).
Qed.

(** C10: [status()] returns the second word of the tensor as it is, cast
    to [BatonStatus], for every int32 value of that word and wherever the
    kernel is; when the word is none of 0, 1, 2, 3 the result is no
    enumerator of [BatonStatus].  Such a word is what a construction on
    stale storage leaves there. *)
Theorem status_is_not_validated (a v t : Z) (pc : kpc) (ws : list Z) :
  is_int32 v ->
  status (mkState [a; v] t pc ws) = static_cast_BatonStatus v /\
  (~ 0 <= v <= 3 -> ~ is_enumerator (status (mkState [a; v] t pc ws))) /\
  Baton_ctor (mkRuntime (Some (a, v)) false) t = Ok (mkState [a; v] t Queued []).
Proof.
  intros _. split; [reflexivity|]. split; [|reflexivity].
  intros Hv [H | [H | [H | H]]]; unfold status, item in H; simpl in H;
    unfold static_cast_BatonStatus, UNKNOWN, RUNNING, TIMED_OUT, ABORTED in H; lia.
Qed.

Lemma status_is_not_validated_witness :
  is_int32 7 /\
  status (launched (0, 7) 50) = 7 /\ ~ is_enumerator (status (launched (0, 7) 50)).
Proof.
  assert (is_int32 7) as H by (unfold is_int32; lia).
  split; [exact H|].
  destruct (status_is_not_validated 0 7 50 Queued [] H) as (H1 & H2 & _).
  split; [exact H1 | apply H2; lia].
Defined.

(** * One iteration of the device loop *)

(** C2, the sentence as the spec has it, fails: the kernel compares the
    word with 1, so the nonzero value 2 is not an abort.  The state below
    is the one reached from a launch on storage holding (2, 0) when the
    loop is about to read the abort word. *)
Lemma nonzero_flag_is_not_always_an_abort : ~ aborts_on_any_nonzero_flag.
Proof.
  intros H.
  destruct (H (run (launched (2, 0) 0) [(0, Device); (5, Device)]) 5 10)
    as [Hs _]; try done.
Qed.

(** C2 as the code has it: every iteration starts by reading the abort
    word, and exactly when the value read is 1 the kernel stores ABORTED
    and returns, whatever the clock and the timeout are, so also when the
    timeout has elapsed; with any other value it stores nothing and goes
    on to the time check or to the sleep.  The time check is only ever
    entered from an abort check of the same iteration that read a value
    other than 1, and an abort check is only entered at loop entry or
    after the sleep. *)
Theorem abort_check_comes_first (s : state) (clock : Z) :
  length (comm_ s) = 2%nat ->
  let s' := kernel_barrier_step clock s in
  (forall start, kernel s = LoopTop start -> item (comm_ s) 0 = 1 ->
     s' = store_status ABORTED Returned s /\
     status s' = ABORTED /\ kernel s' = Returned) /\
  (forall start, kernel s = LoopTop start -> item (comm_ s) 0 <> 1 ->
     status s' = status s /\ dev_writes s' = dev_writes s /\
     (kernel s' = TimeCheck start \/ kernel s' = Nanosleep start 1000000)) /\
  (forall start, kernel s' = TimeCheck start ->
     kernel s = LoopTop start /\ item (comm_ s) 0 <> 1) /\
  (forall start, kernel s' = LoopTop start ->
     kernel s = Started \/ exists ns, kernel s = Nanosleep start ns).
Proof.
  intros Hl s'. subst s'. unfold kernel_barrier_step.
  split; [|split; [|split]].
  - intros start Hk Hf. rewrite Hk, Hf. simpl.
    split; [reflexivity|]. split; [by apply status_store | reflexivity].
  - intros start Hk Hf. rewrite Hk. apply Z.eqb_neq in Hf. rewrite Hf.
    destruct (0 <? timeout_ms s); (split; [reflexivity|]);
      (split; [reflexivity|]); [left | right]; reflexivity.
  - intros start H. destruct (kernel s) eqn:Hk; simpl in H; try discriminate.
    + destruct (item (comm_ s) 0 =? 1) eqn:Hf; [discriminate|].
      apply Z.eqb_neq in Hf.
      destruct (0 <? timeout_ms s); simpl in H; [|discriminate].
      split; [congruence | exact Hf].
    + destruct (timeout_ns_of (timeout_ms s) <? size_t_sub (to_size_t clock) start0);
        discriminate.
    + congruence.
  - intros start H. destruct (kernel s) eqn:Hk; simpl in H; try discriminate.
    + by left.
    + destruct (item (comm_ s) 0 =? 1); [discriminate|].
      destruct (0 <? timeout_ms s); discriminate.
    + destruct (timeout_ns_of (timeout_ms s) <? size_t_sub (to_size_t clock) start0);
        discriminate.
    + right. exists ns. congruence.
    + congruence.
Qed.

(** An abort seen 5 ms into a 1 ms timeout: ABORTED, not TIMED_OUT. *)
Lemma abort_check_comes_first_witness :
  let s := mkState [1; 1] 1 (LoopTop 0) [RUNNING] in
  length (comm_ s) = 2%nat /\
  timeout_ns_of (timeout_ms s) < size_t_sub (to_size_t 5000000) 0 /\
  status (kernel_barrier_step 5000000 s) = ABORTED /\
  kernel (kernel_barrier_step 5000000 s) = Returned.
Proof.
  intros s.
  assert (length (comm_ s) = 2%nat) as Hl by reflexivity.
  split; [exact Hl|]. split; [vm_compute; reflexivity|].
  destruct (abort_check_comes_first s 5000000 Hl) as (H & _).
  destruct (H 0 eq_refl eq_refl) as (_ & Hs & Hk).
  split; [exact Hs | exact Hk].
Defined.

Lemma to_size_t_small z : 0 <= z < 2 ^ 64 -> to_size_t z = z.
Proof. intros H. unfold to_size_t. apply Z.mod_small. lia. Qed.

(** One pass of the loop from its top, when the abort check reads a value
    other than 1 and the timeout is positive: on to the time check, then
    TIMED_OUT and a return if the [size_t] difference of the clock to
    [start] is greater than the converted timeout, else a 1 ms sleep and
    back to the top with nothing stored. *)
Lemma time_check_iteration (s : state) (start c1 c2 c3 : Z) :
  0 < timeout_ s < 2 ^ 63 ->
  length (comm_ s) = 2%nat ->
  kernel s = LoopTop start ->
  item (comm_ s) 0 <> 1 ->
  let elapsed := size_t_sub (to_size_t c2) start in
  let timeout_ns := timeout_ns_of (timeout_ s) in
  let s1 := kernel_barrier_step c1 s in
  let s2 := kernel_barrier_step c2 s1 in
  let s3 := kernel_barrier_step c3 s2 in
  s1 = goto (TimeCheck start) s /\
  (timeout_ns < elapsed ->
     s2 = store_status TIMED_OUT Returned s /\
     status s2 = TIMED_OUT /\ kernel s2 = Returned) /\
  (elapsed <= timeout_ns ->
     s2 = goto (Nanosleep start 1000000) s /\
     status s2 = status s /\ s3 = s).
Proof.
  intros Ht Hl Hk Hf elapsed timeout_ns s1 s2 s3.
  assert (timeout_ms s = timeout_ s) as Hms
    by (unfold timeout_ms; apply to_size_t_small; lia).
  assert (s1 = goto (TimeCheck start) s) as H1.
  { subst s1. unfold kernel_barrier_step. rewrite Hk.
    apply Z.eqb_neq in Hf. rewrite Hf, Hms.
    destruct (Z.ltb_spec 0 (timeout_ s)); [reflexivity | lia]. }
  split; [exact H1|].
  assert (s2 = if timeout_ns <? elapsed
               then store_status TIMED_OUT Returned s
               else goto (Nanosleep start 1000000) s) as H2.
  { subst s2. rewrite H1. unfold kernel_barrier_step. simpl.
    change (timeout_ms (goto (TimeCheck start) s)) with (timeout_ms s).
    rewrite Hms. fold timeout_ns. fold elapsed.
    destruct (timeout_ns <? elapsed); reflexivity. }
  split.
  - intros Hlt. apply Z.ltb_lt in Hlt. rewrite Hlt in H2.
    split; [exact H2|]. rewrite H2.
    split; [by apply status_store | reflexivity].
  - intros Hle. apply Z.ltb_ge in Hle. rewrite Hle in H2.
    split; [exact H2|]. subst s3. rewrite H2.
    split; [reflexivity|].
    destruct s as [c t k w]. simpl in Hk. subst k. reflexivity.
Qed.

(** The clock value of line 16 is the one the loop keeps: a kernel that
    is in the loop with [start] stays so, whatever host and device do. *)
Lemma entered_at_step (start : Z) (s : state) (te : Z * event) :
  entered_at start (kernel s) -> entered_at start (kernel (step s te)).
Proof.
  destruct te as [c []]; [exact id | exact id |].
  rewrite step_device. unfold kernel_barrier_step.
  destruct (kernel s) as [| |st|st|st ns|] eqn:Hk; simpl; try done.
  - intros ->. destruct (item (comm_ s) 0 =? 1); [done|].
    destruct (0 <? timeout_ms s); reflexivity.
  - intros ->.
    destruct (timeout_ns_of (timeout_ms s) <? size_t_sub (to_size_t c) start);
      done.
  - intros _. rewrite Hk. exact I.
Qed.

Lemma entered_at_run (start : Z) (tr : list (Z * event)) : forall s : state,
  entered_at start (kernel s) -> entered_at start (kernel (run s tr)).
Proof.
  induction tr as [|te tr IH]; intros s H; [exact H|].
  rewrite run_cons. apply IH. by apply entered_at_step.
Qed.

(** C3, the sentence as the spec has it, fails for a timeout of
    576460752305 ms: the double product [timeout_ms * 1e6] is 64 ns short
    of t * 10^6, so a kernel launched on zeroed storage that has been in
    the loop for t * 10^6 - 10 ns, which does not exceed the timeout,
    stores TIMED_OUT and returns. *)
Lemma timeout_threshold_is_rounded : ~ times_out_exactly_past_the_timeout.
Proof.
  intros H.
  pose (s0 := run (launched (0, 0) 576460752305) [(0, Device)]).
  destruct (H s0 0 1000 (576460752305 * 1000000 - 10)) as [Hout _].
  - simpl. lia.
  - reflexivity.
  - reflexivity.
  - vm_compute. discriminate.
  - assert (576460752305 * 1000000
            < size_t_sub (to_size_t (576460752305 * 1000000 - 10)) (to_size_t 0))
      as Hlt by (apply Hout; split; vm_compute; reflexivity).
    vm_compute in Hlt. discriminate.
Qed.

(** C3 (amended): with a timeout t > 0 (a signed 64-bit millisecond
    count), take the kernel at line 16, where it reads the clock value
    [c0] on entering the loop, and any later point of the run at which it
    is at the top of the loop and its abort check reads a value other
    than 1.  The start value it holds there is [c0]; it goes on to the
    time check, reads the clock, takes the [size_t] difference to [c0],
    and stores TIMED_OUT and returns exactly when that difference is
    greater than [timeout_ns], the kernel's conversion of t to
    nanoseconds; otherwise it stores nothing, calls
    [__nanosleep(1000000)] (1 ms) and is back at the top of the loop with
    the tensor unchanged.  The conversion is the double product
    [t * 1e6]: it is t * 10^6 for every t below 2^53 / 15625 (about 18
    years), and not for every t beyond. *)
Theorem timeout_check
    (s0 : state) (c0 : Z) (tr : list (Z * event)) (start c1 c2 c3 : Z) :
  0 < timeout_ s0 < 2 ^ 63 ->
  length (comm_ s0) = 2%nat ->
  kernel s0 = Started ->
  let s := run (kernel_barrier_step c0 s0) tr in
  kernel s = LoopTop start ->
  item (comm_ s) 0 <> 1 ->
  let t := timeout_ s0 in
  let elapsed := size_t_sub (to_size_t c2) (to_size_t c0) in
  let timeout_ns := timeout_ns_of t in
  let s1 := kernel_barrier_step c1 s in
  let s2 := kernel_barrier_step c2 s1 in
  let s3 := kernel_barrier_step c3 s2 in
  start = to_size_t c0 /\
  timeout_ s = t /\
  s1 = goto (TimeCheck start) s /\
  (timeout_ns < elapsed ->
     s2 = store_status TIMED_OUT Returned s /\
     status s2 = TIMED_OUT /\ kernel s2 = Returned) /\
  (elapsed <= timeout_ns ->
     s2 = goto (Nanosleep start 1000000) s /\
     status s2 = status s /\ s3 = s) /\
  (t * 15625 < 2 ^ 53 -> timeout_ns = t * 1000000).
Proof.
  intros Ht Hl Hk0 s Hk Hf t elapsed timeout_ns s1 s2 s3.
  assert (start = to_size_t c0) as Hstart.
  { pose proof (entered_at_run (to_size_t c0) tr (kernel_barrier_step c0 s0))
      as He.
    fold s in He. rewrite Hk in He. apply He.
    unfold kernel_barrier_step. rewrite Hk0. reflexivity. }
  assert (timeout_ s = t) as Hts
    by (subst s t; rewrite timeout_run; apply timeout_kernel_step).
  assert (length (comm_ s) = 2%nat) as Hls
    by (subst s; rewrite length_run, length_kernel_step; exact Hl).
  split; [exact Hstart|]. split; [exact Hts|].
  assert (0 < timeout_ s < 2 ^ 63) as Ht' by (rewrite Hts; exact Ht).
  destruct (time_check_iteration s start c1 c2 c3 Ht' Hls Hk Hf)
    as (H1 & Hout & Hin).
  rewrite Hts in Hout, Hin.
  split; [exact H1|]. split; [|split].
  - intros Hlt. apply Hout. rewrite Hstart. exact Hlt.
  - intros Hle. apply Hin. rewrite Hstart. exact Hle.
  - intros Hsmall. subst timeout_ns. apply timeout_ns_exact; subst t; lia.
Qed.

(** A 50 ms baton whose kernel entered the loop at clock value 100 and
    has gone round once: at clock value 50000101 it times out, at
    50000100 (exactly 50 ms) it sleeps once more. *)
Lemma timeout_check_witness :
  let s0 := mkState [0; 1] 50 Started [RUNNING] in
  let tr := [(107, Device); (108, Device); (109, HostStatus); (110, Device)] in
  let s := run (kernel_barrier_step 100 s0) tr in
  0 < timeout_ s0 < 2 ^ 63 /\ length (comm_ s0) = 2%nat /\
  kernel s0 = Started /\ kernel s = LoopTop 100 /\ item (comm_ s) 0 <> 1 /\
  status (kernel_barrier_step 50000101 (kernel_barrier_step 111 s)) = TIMED_OUT /\
  kernel (kernel_barrier_step 50000100 (kernel_barrier_step 111 s))
    = Nanosleep 100 1000000 /\
  timeout_ns_of 50 = 50 * 1000000.
Proof.
  intros s0 tr s.
  assert (0 < timeout_ s0 < 2 ^ 63) as Ht by (simpl; lia).
  assert (length (comm_ s0) = 2%nat) as Hl by reflexivity.
  assert (kernel s0 = Started) as Hk0 by reflexivity.
  assert (kernel s = LoopTop 100) as Hk by (vm_compute; reflexivity).
  assert (item (comm_ s) 0 <> 1) as Hf by (vm_compute; discriminate).
  do 5 (split; [assumption|]).
  destruct (timeout_check s0 100 tr 100 111 50000101 0 Ht Hl Hk0 Hk Hf)
    as (_ & _ & _ & Hout & _ & Hns).
  destruct (timeout_check s0 100 tr 100 111 50000100 0 Ht Hl Hk0 Hk Hf)
    as (_ & _ & _ & _ & Hin & _).
  split; [apply Hout; vm_compute; reflexivity|].
  split; [|apply Hns; simpl; lia].
  destruct Hin as (-> & _); [vm_compute; discriminate | reflexivity].
Defined.

(** Beyond that range the double product rounds: 576460752305 ms becomes
    64 ns less than 576460752305 * 10^6. *)
Example timeout_ns_rounds :
  timeout_ns_of 576460752305 = 576460752305 * 1000000 - 64.
Proof. reflexivity. Qed.

(** * The status word along a run *)

(** X1: the stores of the kernel into the status word, on every run from
    a launch: RUNNING first, then at most one of TIMED_OUT and ABORTED,
    then nothing; the kernel has returned exactly when it has stored one
    of the two. *)
Lemma dev_writes_order (w : Z * Z) (t : Z) (tr : list (Z * event)) :
  let s := run (launched w t) tr in
  (kernel s = Queued /\ dev_writes s = []) \/
  (kernel s <> Queued /\ kernel s <> Returned /\ dev_writes s = [RUNNING]) \/
  (kernel s = Returned /\ dev_writes s = [RUNNING; TIMED_OUT]) \/
  (kernel s = Returned /\ dev_writes s = [RUNNING; ABORTED]).
Proof.
  intros s. destruct (consistent_reachable w t tr) as [_ H]. fold s in H.
  destruct (kernel s); try (right; left; repeat split; try done; apply H).
  - left. split; [done | apply H].
  - right; right. destruct H as [H | H]; [left | right]; split; try done; apply H.
Qed.

(** X2: with timeout 0 the kernel never stores TIMED_OUT, whatever the
    storage held: if it has returned, it stored ABORTED after reading 1
    in the abort word. *)
Lemma no_timeout_never_times_out (w : Z * Z) (tr : list (Z * event)) :
  let s := run (launched w 0) tr in
  ~ In TIMED_OUT (dev_writes s) /\
  (kernel s = Returned -> status s = ABORTED /\ item (comm_ s) 0 = 1).
Proof.
  intros s. destruct (consistent_reachable w 0 tr) as [_ H]. fold s in H.
  assert (timeout_ms s = 0) as Ht.
  { unfold timeout_ms, s. rewrite timeout_run. reflexivity. }
  destruct (kernel s) eqn:Hk;
    try (split; [|discriminate]);
    try (destruct H as [-> _]; simpl; unfold RUNNING, TIMED_OUT; lia).
  destruct H as [(_ & _ & H) | (Hw & Hs & Hf)]; [lia|].
  split; [|done]. rewrite Hw. simpl. unfold RUNNING, ABORTED, TIMED_OUT. lia.
Qed.

(** X3: when the abort word of the storage was not already 1, the kernel
    stores ABORTED only after a call of [abort()]. *)
Lemma aborted_only_after_abort (w : Z * Z) (t : Z) (tr : list (Z * event)) :
  w.1 <> 1 ->
  In ABORTED (dev_writes (run (launched w t) tr)) ->
  Exists (fun te => te.2 = HostAbort) tr.
Proof.
  intros Hw Hin.
  destruct (decide (Exists (fun te : Z * event => te.2 = HostAbort) tr)) as [H | H];
    [exact H|].
  exfalso. apply Forall_Exists_neg in H.
  pose proof (flag_run_no_abort tr (launched w t) H) as Hf.
  destruct (consistent_reachable w t tr) as [_ Hc].
  destruct (kernel (run (launched w t) tr));
    try (destruct Hc as [Hd _]; rewrite Hd in Hin; simpl in Hin;
         unfold RUNNING, ABORTED in Hin; lia).
  destruct Hc as [(Hd & _) | (_ & _ & H1)].
  - rewrite Hd in Hin. simpl in Hin. unfold RUNNING, TIMED_OUT, ABORTED in Hin. lia.
  - rewrite Hf in H1. unfold launched, item in H1. simpl in H1. done.
Qed.

(** X4: on a storage whose status word was zero, a terminal value
    returned by [status()] is returned by every later call. *)
Lemma terminal_status_is_stable (w0 t : Z) (tr1 tr2 : list (Z * event)) :
  is_terminal (status (run (launched (w0, 0) t) tr1)) ->
  status (run (launched (w0, 0) t) (tr1 ++ tr2))
    = status (run (launched (w0, 0) t) tr1).
Proof.
  intros Hterm. rewrite run_app.
  destruct (consistent_reachable (w0, 0) t tr1) as [_ Hc]. simpl in Hc.
  destruct (kernel (run (launched (w0, 0) t) tr1)) eqn:Hk;
    try (exfalso; destruct Hc as (_ & Hs & _) || destruct Hc as (_ & Hs);
         rewrite Hs in Hterm;
         unfold is_terminal, RUNNING, TIMED_OUT, ABORTED in Hterm; lia).
  by destruct (returned_run tr2 _ Hk) as (_ & -> & _).
Qed.

(** C4 (code defect, the one of C1): a baton with timeout 0 built on
    storage whose first word is 1 stores ABORTED in its first iteration
    although [abort()] is never called.  (That it never stores TIMED_OUT
    is [no_timeout_never_times_out].) *)
Theorem stale_flag_aborts_without_abort :
  let tr := [(0, Device); (10, Device); (20, Device)] in
  let s := run (launched (1, 0) 0) tr in
  Forall (fun te => te.2 <> HostAbort) tr /\
  kernel s = Returned /\ status s = ABORTED /\
  dev_writes s = [RUNNING; ABORTED].
Proof.
  split; [|by repeat split].
  repeat constructor; discriminate.
Qed.

(** C5 (code defect, the one of C1): on storage whose second word is 2,
    a first [status()] call returns TIMED_OUT while the kernel is still
    queued, and a later one, after the kernel has started, returns
    RUNNING: the word does not start at UNKNOWN and a terminal value
    that was returned does not stay.  (The kernel's own stores are in
    order, [dev_writes_order], and on zeroed storage terminal values
    stay, [terminal_status_is_stable].) *)
Theorem stale_status_breaks_the_sequence :
  let tr := [(0, HostStatus); (5, Device); (6, HostStatus)] in
  observations (launched (0, 2) 1000) tr = [TIMED_OUT; RUNNING] /\
  is_terminal TIMED_OUT /\ RUNNING <> TIMED_OUT /\
  dev_writes (run (launched (0, 2) 1000) tr) = [RUNNING].
Proof.
  split; [reflexivity|]. split; [by left|].
  split; [discriminate | reflexivity].
Qed.

(** * [abort()] *)

Lemma iter_abort (n : nat) (s : state) : Nat.iter (S n) abort s = abort s.
Proof.
  induction n as [|n IH]; [reflexivity|].
  change (Nat.iter (S (S n)) abort s) with (abort (Nat.iter (S n) abort s)).
  rewrite IH. apply abort_abort.
Qed.

Lemma observations_cons s te tr :
  observations s (te :: tr) =
    match te.2 with
    | HostStatus => status s :: observations (step s te) tr
    | _ => observations (step s te) tr
    end.
Proof. reflexivity. Qed.

(** Once the abort word is 1, further [abort()] calls can be dropped from
    a trace without changing the states it goes through. *)
Lemma run_drop_aborts tr : forall s,
  length (comm_ s) = 2%nat -> item (comm_ s) 0 = 1 ->
  run s (drop_aborts tr) = run s tr /\
  observations s (drop_aborts tr) = observations s tr.
Proof.
  induction tr as [|te tr IH]; intros s Hl Hf; [done|].
  assert (length (comm_ (step s te)) = 2%nat) as Hl' by by rewrite length_step.
  pose proof (flag_step s te Hl Hf) as Hf'.
  destruct (IH _ Hl' Hf') as [IHr IHo].
  destruct te as [t []]; simpl drop_aborts.
  - rewrite run_cons, observations_cons. simpl.
    rewrite step_host_abort in *. rewrite abort_when_set in * by done. done.
  - rewrite !run_cons, !observations_cons. simpl. by rewrite IHr, IHo.
  - rewrite !run_cons, !observations_cons. simpl. by rewrite IHr, IHo.
Qed.

Lemma run_first_abort_only tr : forall s,
  length (comm_ s) = 2%nat ->
  run s (first_abort_only tr) = run s tr /\
  observations s (first_abort_only tr) = observations s tr.
Proof.
  induction tr as [|te tr IH]; intros s Hl; [done|].
  assert (length (comm_ (step s te)) = 2%nat) as Hl' by by rewrite length_step.
  destruct te as [t []]; simpl first_abort_only.
  - rewrite !run_cons, !observations_cons. simpl.
    apply run_drop_aborts; [exact Hl' | by apply flag_abort].
  - rewrite !run_cons, !observations_cons. simpl.
    destruct (IH _ Hl') as [-> ->]. done.
  - rewrite !run_cons, !observations_cons. simpl.
    destruct (IH _ Hl') as [-> ->]. done.
Qed.

(** A call made after the kernel has returned is not observable. *)
Lemma returned_abort_observations tr : forall s,
  kernel s = Returned -> observations (abort s) tr = observations s tr.
Proof.
  induction tr as [|te tr IH]; intros s Hk; [reflexivity|].
  rewrite !observations_cons.
  assert (step (abort s) te = abort (step s te)) as Hc.
  { destruct te as [t []]; try reflexivity.
    rewrite !step_device. unfold kernel_barrier_step.
    change (kernel (abort s)) with (kernel s). rewrite Hk. reflexivity. }
  destruct (returned_step s te Hk) as (Hks & _).
  rewrite Hc, status_abort, (IH (step s te) Hks). reflexivity.
Qed.

(** C6: [abort()] stores the constant 1 in word 0 of the tensor and
    touches nothing else, so N > 1 calls in a row leave the very state
    one call leaves, and every continuation then goes through the same
    states and returns the same [status()] values; the same holds when
    the calls are spread over a trace (all calls after the first can be
    dropped); and once the kernel has returned a call changes neither the
    status word nor what any later [status()] returns. *)
Theorem abort_is_idempotent (n : nat) (s : state) (tr : list (Z * event)) :
  (1 < n)%nat ->
  length (comm_ s) = 2%nat ->
  comm_ (abort s) = [1; item (comm_ s) 1] /\
  Nat.iter n abort s = abort s /\
  run (Nat.iter n abort s) tr = run (abort s) tr /\
  observations (Nat.iter n abort s) tr = observations (abort s) tr /\
  run s (first_abort_only tr) = run s tr /\
  observations s (first_abort_only tr) = observations s tr /\
  (kernel s = Returned ->
     status (abort s) = status s /\
     status (run (abort s) tr) = status (run s tr) /\
     observations (abort s) tr = observations s tr).
Proof.
  intros Hn Hl.
  assert (Nat.iter n abort s = abort s) as Hit.
  { destruct n as [|n]; [lia|]. apply iter_abort. }
  split.
  { unfold abort; simpl. rewrite (two_words _ Hl) at 1. reflexivity. }
  split; [exact Hit|]. rewrite Hit.
  split; [reflexivity|]. split; [reflexivity|].
  destruct (run_first_abort_only tr s Hl) as [Hr Ho].
  split; [exact Hr|]. split; [exact Ho|].
  intros Hk. split; [apply status_abort|].
  assert (kernel (abort s) = Returned) as Hk' by exact Hk.
  destruct (returned_run tr s Hk) as (_ & -> & _).
  destruct (returned_run tr (abort s) Hk') as (_ & -> & _).
  split; [apply status_abort|].
  by apply returned_abort_observations.
Qed.

(** Three calls on a running 50 ms baton, then the loop goes on. *)
Lemma abort_is_idempotent_witness :
  let s := run (launched (0, 0) 50) [(0, Device); (5, Device)] in
  let tr := [(10, Device); (11, HostStatus); (12, HostAbort); (13, HostStatus)] in
  (1 < 3)%nat /\ length (comm_ s) = 2%nat /\
  abort (abort (abort s)) = abort s /\
  observations (abort (abort (abort s))) tr = observations (abort s) tr /\
  observations (abort s) tr = [ABORTED; ABORTED].
Proof.
  intros s tr.
  assert (1 < 3)%nat as Hn by lia.
  assert (length (comm_ s) = 2%nat) as Hl by reflexivity.
  split; [exact Hn|]. split; [exact Hl|].
  destruct (abort_is_idempotent 3 s tr Hn Hl) as (_ & H1 & _ & H2 & _).
  split; [exact H1|]. split; [exact H2 | reflexivity].
Defined.

(** * Abort against timeout *)

Section Aborting.
Variable v0 : Z.

Lemma aborting_kernel_step c s :
  aborting v0 s ->
  aborting v0 (kernel_barrier_step c s) /\
  steps_to_flag_read (kernel (kernel_barrier_step c s))
    = Nat.pred (steps_to_flag_read (kernel s)).
Proof.
  intros (Hl & Hf & Hmid & Hw & Hs & Hr).
  unfold aborting, mid_iteration, kernel_barrier_step.
  destruct (kernel s) eqn:Hk; cbv beta iota.
  - (* Queued *)
    rewrite length_store, flag_store, status_store by done. simpl.
    repeat split; try done.
    + intros [st H]. discriminate.
    + rewrite in_app_iff. simpl. unfold RUNNING, TIMED_OUT. intuition lia.
    + by right; left.
  - (* Started *)
    simpl. repeat split; try done. intros [st H]. discriminate.
  - (* LoopTop *)
    rewrite Hf. cbv beta iota. change (1 =? 1) with true. cbv beta iota.
    rewrite length_store, flag_store, status_store by done. simpl.
    repeat split; try done.
    + intros [st H]. discriminate.
    + rewrite in_app_iff. simpl. unfold ABORTED, TIMED_OUT. intuition lia.
    + by right; right.
  - (* TimeCheck *)
    exfalso. apply Hmid. by exists start.
  - (* Nanosleep *)
    simpl. repeat split; try done. intros [st H]. discriminate.
  - (* Returned *)
    rewrite Hk. repeat split; try done; auto.
    intros [st H]. discriminate.
Qed.

Lemma aborting_step s te : aborting v0 s -> aborting v0 (step s te).
Proof.
  intros H. destruct te as [t []].
  - destruct H as (Hl & Hf & H). rewrite step_host_abort, abort_when_set; done.
  - exact H.
  - by apply aborting_kernel_step.
Qed.

Lemma aborting_run tr : forall s,
  aborting v0 s ->
  aborting v0 (run s tr) /\
  ((steps_to_flag_read (kernel s) <= device_steps tr)%nat ->
     kernel (run s tr) = Returned).
Proof.
  induction tr as [|te tr IH]; intros s H.
  - split; [exact H|]. simpl. intros Hn.
    destruct H as (_ & _ & Hmid & _).
    destruct (kernel s) eqn:Hk; simpl in Hn; try lia; try reflexivity.
  - rewrite run_cons.
    destruct (IH _ (aborting_step s te H)) as [IHa IHn].
    split; [exact IHa|]. intros Hn. apply IHn.
    destruct te as [t []]; simpl in Hn.
    + exact Hn.
    + exact Hn.
    + rewrite step_device.
      destruct (aborting_kernel_step t s H) as [_ ->]. lia.
Qed.
End Aborting.

(** C7, the sentence as the spec has it, fails.  A 1 ms baton on zeroed
    storage: the iteration that starts at 0.9999 ms reads the abort word
    as 0; [abort()] is called at 0.99995 ms, before the timeout has
    elapsed; the same iteration reads the clock at 1.00005 ms and stores
    TIMED_OUT.  [status()] returns TIMED_OUT from then on, never
    ABORTED. *)
Lemma abort_in_time_can_lose : ~ abort_in_time_wins.
Proof.
  intros H.
  destruct (H 1 999950 1000060
              [(0, Device); (0, Device); (0, Device); (10, Device);
               (999900, Device); (999900, Device)]
              [(1000050, Device)]) as [Hs _].
  - lia.
  - simpl. lia.
  - right. lia.
  - apply Hs. reflexivity.
Qed.

(** The bound of one poll interval also fails while the kernel is still
    queued: abort at once, a [status()] call 2 ms later, no device step
    yet. *)
Example queued_abort_is_not_seen :
  status (run (launched (0, 0) 0) [(0, HostAbort); (2000000, HostStatus)])
  = UNKNOWN.
Proof. reflexivity. Qed.

(** C7 as the code has it.  Take any timeout and any storage, and an
    [abort()] call that finds the kernel not yet returned and not between
    the abort check and the time check of an iteration.  From then on
    the kernel never stores TIMED_OUT; the status word keeps the value
    it had at the call or is RUNNING or ABORTED; if the kernel returns it
    has stored ABORTED; and it does return, with ABORTED, at its next
    read of the abort word, whatever the clock says: after at most one
    step when it is at the top of an iteration, two when it sleeps or is
    entering the loop, three when it is still queued. *)
Theorem abort_seen_at_next_flag_read
    (w : Z * Z) (t delta : Z) (before after : list (Z * event)) :
  let s := run (launched w t) (before ++ [(delta, HostAbort)]) in
  let s' := run s after in
  kernel s <> Returned -> ~ mid_iteration s ->
  ~ In TIMED_OUT (dev_writes s') /\
  (status s' = status s \/ status s' = RUNNING \/ status s' = ABORTED) /\
  (kernel s' = Returned -> status s' = ABORTED) /\
  ((steps_to_flag_read (kernel s) <= device_steps after)%nat ->
     kernel s' = Returned /\ status s' = ABORTED).
Proof.
  intros s s' Hk Hmid.
  assert (aborting (status s) s) as Ha.
  { destruct (consistent_reachable w t (before ++ [(delta, HostAbort)])) as [Hl Hc].
    fold s in Hl, Hc.
    repeat split; try done.
    - unfold s. rewrite run_app. simpl. apply flag_abort.
      by rewrite length_run.
    - destruct (kernel s); try done;
        try (destruct Hc as (-> & _); simpl; unfold RUNNING, TIMED_OUT; lia).
    - by left. }
  destruct (aborting_run (status s) after s Ha) as [(_ & _ & _ & Hw & Hs & Hr) Hn].
  fold s' in Hw, Hs, Hr, Hn.
  repeat split; try done; auto.
Qed.

(** A 1 ms baton whose abort arrives during the sleep, with the next
    clock reading far beyond the timeout. *)
Lemma abort_seen_at_next_flag_read_witness :
  let before := [(0, Device); (0, Device); (0, Device); (10, Device)] in
  let after := [(7000000, Device); (7000001, Device); (7000002, Device)] in
  let s := run (launched (0, 0) 1) (before ++ [(500000, HostAbort)]) in
  kernel s <> Returned /\ ~ mid_iteration s /\
  status (run s after) = ABORTED /\
  ~ In TIMED_OUT (dev_writes (run s after)).
Proof.
  intros before after s.
  assert (kernel s <> Returned) as Hk by (vm_compute; discriminate).
  assert (~ mid_iteration s) as Hmid by (intros [st H]; vm_compute in H; discriminate).
  split; [exact Hk|]. split; [exact Hmid|].
  destruct (abort_seen_at_next_flag_read (0, 0) 1 500000 before after Hk Hmid)
    as (Hw & _ & _ & Hn).
  split; [|exact Hw].
  apply Hn. vm_compute. lia.
Defined.

(** * The factory *)

(** C8: [Create] gives the null pointer for a name that is not
    registered and otherwise what the registered constructor gives, a
    baton it built or the exception it threw; [baton] never returns the
    null pointer: it returns the baton [Create] returned, throws "Failed
    to create baton" when [Create] returned null, and lets an exception
    of the constructor pass.  A baton the CUDA constructor returns is
    complete: its tensor has two words, its timeout is the argument, and
    its kernel is enqueued; when the allocation or the launch fails there
    is an exception and no baton. *)
Theorem creation_is_all_or_nothing
    (reg : gmap string (Z -> result state)) (key : string) (timeout : Z) :
  (reg !! key = None -> Create reg key timeout = Ok None) /\
  (forall p, Create reg key timeout = Ok p ->
     p = None /\ reg !! key = None \/
     exists creator b, reg !! key = Some creator /\
                       creator timeout = Ok b /\ p = Some b) /\
  baton reg timeout <> Ok None /\
  (forall b, Create reg "CUDA" timeout = Ok (Some b) ->
     baton reg timeout = Ok (Some b)) /\
  (Create reg "CUDA" timeout = Ok None ->
     baton reg timeout = Throw "Failed to create baton") /\
  (forall msg, Create reg "CUDA" timeout = Throw msg ->
     baton reg timeout = Throw msg) /\
  (forall rt,
     match baton (BatonRegistry rt) timeout with
     | Ok p => exists w, empty_pinned rt = Some w /\ launch_fails rt = false /\
                         p = Some (launched w timeout) /\
                         length (comm_ (launched w timeout)) = 2%nat /\
                         timeout_ (launched w timeout) = timeout /\
                         kernel (launched w timeout) = Queued
     | Throw _ => empty_pinned rt = None \/ launch_fails rt = true
     end) /\
  baton ∅ timeout = Throw "Failed to create baton".
Proof.
  repeat split.
  - intros H. unfold Create. by rewrite H.
  - intros p. unfold Create. destruct (reg !! key) as [creator|] eqn:Hreg.
    + destruct (creator timeout) as [b|msg] eqn:Hc; [|discriminate].
      intros [= <-]. right. by exists creator, b.
    + intros [= <-]. by left.
  - unfold baton. destruct (Create reg "CUDA" timeout) as [[b|]|msg]; discriminate.
  - intros b H. unfold baton. by rewrite H.
  - intros H. unfold baton. by rewrite H.
  - intros msg H. unfold baton. by rewrite H.
  - intros rt. unfold baton, Create, BatonRegistry, Register.
    rewrite lookup_insert_eq. unfold Baton_ctor.
    destruct (empty_pinned rt) as [w|]; [|by left].
    destruct (launch_fails rt); [by right|].
    by exists w.
Qed.

Lemma creation_is_all_or_nothing_witness :
  baton (BatonRegistry (mkRuntime (Some (0, 0)) false)) 50
    = Ok (Some (launched (0, 0) 50)) /\
  baton (BatonRegistry (mkRuntime (Some (0, 0)) true)) 50
    = Throw "CUDA kernel launch error" /\
  baton (BatonRegistry (mkRuntime None false)) 50
    = Throw "empty: allocation failed" /\
  baton ∅ 50 = Throw "Failed to create baton".
Proof.
  destruct (creation_is_all_or_nothing ∅ "CUDA" 50)
    as (_ & _ & _ & _ & _ & _ & _ & H).
  split; [reflexivity|]. split; [reflexivity|]. split; [reflexivity | exact H].
Defined.

(** * An unreachable device *)

(** C9, the sentence as the spec has it, fails: [status()] has no fault
    outcome.  On zeroed storage, a baton whose kernel never executes
    returns UNKNOWN, which is what a baton whose kernel is merely queued
    returns. *)
Lemma unreachable_device_is_not_reported : ~ unreachable_device_is_reported.
Proof.
  intros H.
  apply (H (0, 0) 50 [(5, HostStatus); (7, HostAbort); (9, HostStatus)]).
  - repeat constructor; discriminate.
  - by left.
Qed.

(** A step of the kernel leaves the status word alone or stores one of
    the three values the kernel writes. *)
Lemma status_kernel_step c s :
  length (comm_ s) = 2%nat ->
  status (kernel_barrier_step c s) = status s \/
  (status (kernel_barrier_step c s) = RUNNING \/
   status (kernel_barrier_step c s) = TIMED_OUT \/
   status (kernel_barrier_step c s) = ABORTED).
Proof.
  intros Hl. unfold kernel_barrier_step.
  destruct (kernel s);
    repeat match goal with
      | |- context [if ?b then _ else _] => destruct b
      end;
    try (left; reflexivity);
    right; rewrite status_store by done; auto.
Qed.

(** C9 as the code has it: [status()] returns the status word and
    nothing else.  As long as no step of the kernel is executed the
    kernel stays queued and every [status()] call returns the word the
    storage held at construction, whatever calls the host makes; only
    steps of the kernel ever change what [status()] returns, and a step
    that changes it is a store of RUNNING, TIMED_OUT or ABORTED. *)
Theorem status_without_device (w : Z * Z) (t : Z) (tr : list (Z * event)) :
  host_only tr ->
  status (run (launched w t) tr) = static_cast_BatonStatus w.2 /\
  kernel (run (launched w t) tr) = Queued /\
  dev_writes (run (launched w t) tr) = [] /\
  Forall (fun v => v = w.2) (observations (launched w t) tr) /\
  (forall (tr' : list (Z * event)) (te : Z * event),
     let s := run (launched w t) tr' in
     status (step s te) <> status s ->
     te.2 = Device /\
     (status (step s te) = RUNNING \/ status (step s te) = TIMED_OUT \/
      status (step s te) = ABORTED)).
Proof.
  intros H.
  destruct (host_only_run tr (launched w t) H) as (Hs & Hk & Hw).
  split; [exact Hs|]. split; [exact Hk|]. split; [exact Hw|].
  split; [exact (host_only_observations tr (launched w t) H)|].
  intros tr' te s Hne.
  destruct te as [c []].
  - exfalso. apply Hne. apply status_abort.
  - exfalso. by apply Hne.
  - split; [reflexivity|].
    assert (length (comm_ s) = 2%nat) as Hl by (unfold s; by rewrite length_run).
    rewrite step_device in *.
    destruct (status_kernel_step c s Hl) as [Heq | Hst]; [done | exact Hst].
Qed.

(** A queued 50 ms baton on zeroed storage, polled and aborted by the
    host while the device does nothing: UNKNOWN every time. *)
Lemma status_without_device_witness :
  let tr := [(5, HostStatus); (7, HostAbort); (9, HostStatus)] in
  host_only tr /\
  status (run (launched (0, 0) 50) tr) = UNKNOWN /\
  observations (launched (0, 0) 50) tr = [UNKNOWN; UNKNOWN].
Proof.
  intros tr.
  assert (host_only tr) as H by (repeat constructor; discriminate).
  split; [exact H|].
  destruct (status_without_device (0, 0) 50 tr H) as (Hs & _).
  split; [exact Hs | reflexivity].
Defined.

(** * Further properties of the baton *)

Lemma timeout_ms_step s te : timeout_ms (step s te) = timeout_ms s.
Proof. unfold timeout_ms. by rewrite timeout_step. Qed.

Lemma size_t_sub_small now start :
  0 <= start <= now -> now < 2 ^ 64 -> size_t_sub (to_size_t now) start = now - start.
Proof.
  intros H1 H2. unfold size_t_sub. rewrite to_size_t_small by lia.
  apply Z.mod_small. lia.
Qed.

Lemma on_time_step (T : Z) (s : state) (te : Z * event) :
  0 <= T <= te.1 -> te.1 < 2 ^ 64 -> on_time T s -> on_time te.1 (step s te).
Proof.
  destruct te as [c e]. simpl fst. intros HT Hc H.
  destruct e.
  - (* abort() *)
    rewrite step_host_abort. unfold on_time in *.
    change (kernel (abort s)) with (kernel s).
    change (dev_writes (abort s)) with (dev_writes s).
    change (timeout_ms (abort s)) with (timeout_ms s).
    destruct (kernel s); try done; try (split; [lia | apply H]).
    intros Hin. specialize (H Hin). lia.
  - (* status() *)
    rewrite step_host_status. unfold on_time in *.
    destruct (kernel s); try done; try (split; [lia | apply H]).
    intros Hin. specialize (H Hin). lia.
  - (* a step of the kernel *)
    rewrite step_device. unfold on_time, kernel_barrier_step in *.
    destruct (kernel s) eqn:Hk; cbv beta iota.
    + simpl. rewrite in_app_iff. simpl. unfold RUNNING, TIMED_OUT. intuition lia.
    + simpl. rewrite to_size_t_small by lia. split; [lia | exact H].
    + destruct H as [Hs Hw].
      destruct (item (comm_ s) 0 =? 1).
      * simpl. rewrite in_app_iff. simpl. unfold ABORTED, TIMED_OUT. intuition lia.
      * destruct (0 <? timeout_ms s); simpl; (split; [lia | exact Hw]).
    + destruct H as [Hs Hw].
      rewrite size_t_sub_small by lia.
      destruct (Z.ltb_spec (timeout_ns_of (timeout_ms s)) (c - start)).
      * simpl. intros _. change (timeout_ms (store_status _ _ s)) with (timeout_ms s). lia.
      * simpl. split; [lia | exact Hw].
    + simpl. destruct H as [Hs Hw]. split; [lia | exact Hw].
    + rewrite Hk. intros Hin. specialize (H Hin). lia.
Qed.

Lemma on_time_run (tr : list (Z * event)) : forall (T : Z) (s : state),
  0 <= T -> chronological T tr -> Forall (fun te => te.1 < 2 ^ 64) tr ->
  on_time T s -> on_time (last_time T tr) (run s tr).
Proof.
  induction tr as [|te tr IH]; intros T s HT Hchr Hlt H; [exact H|].
  destruct Hchr as [Hle Hchr]. inversion Hlt as [|? ? Hte Htr]; subst.
  rewrite run_cons. simpl last_time. apply IH; try done; [lia|].
  apply (on_time_step T); [lia | done | done].
Qed.

(** X5: the kernel never stores TIMED_OUT early.  On a trace whose times
    start at the construction (0), never go back and fit the 64-bit
    clock, a stored TIMED_OUT means that more than [timeout_ns]
    nanoseconds have passed since the construction, whatever the storage
    held and whatever the host called. *)
Theorem no_early_timeout (w : Z * Z) (t : Z) (tr : list (Z * event)) :
  chronological 0 tr ->
  Forall (fun te => te.1 < 2 ^ 64) tr ->
  In TIMED_OUT (dev_writes (run (launched w t) tr)) ->
  timeout_ns_of (to_size_t t) < last_time 0 tr.
Proof.
  intros Hchr Hlt Hin.
  assert (on_time 0 (launched w t)) as H0 by (unfold on_time; simpl; tauto).
  pose proof (on_time_run tr 0 (launched w t) (Z.le_refl 0) Hchr Hlt H0) as H.
  unfold on_time in H.
  assert (timeout_ms (run (launched w t) tr) = to_size_t t) as Ht.
  { unfold timeout_ms. by rewrite timeout_run. }
  destruct (kernel (run (launched w t) tr)); try tauto.
  rewrite Ht in H. by apply H.
Qed.

Lemma no_early_timeout_witness :
  let tr := [(0, Device); (10, Device); (20, Device); (30, Device);
             (1000040, Device); (50000050, Device); (50000060, Device)] in
  chronological 0 tr /\
  In TIMED_OUT (dev_writes (run (launched (0, 0) 50) tr)) /\
  50 * 1000000 < last_time 0 tr.
Proof.
  intros tr.
  assert (chronological 0 tr) as Hchr by (simpl; lia).
  assert (Forall (fun te : Z * event => te.1 < 2 ^ 64) tr) as Hlt
    by (repeat constructor; simpl; lia).
  assert (In TIMED_OUT (dev_writes (run (launched (0, 0) 50) tr))) as Hin
    by (vm_compute; tauto).
  split; [exact Hchr|]. split; [exact Hin|].
  exact (no_early_timeout (0, 0) 50 tr Hchr Hlt Hin).
Defined.

Lemma round_double_nonneg n : 0 <= n -> 0 <= round_double n.
Proof.
  intros Hn. unfold round_double.
  destruct (Z.leb_spec (Z.log2 n - 52) 0) as [|He]; [exact Hn|].
  set (e := Z.log2 n - 52) in *. cbv zeta.
  assert (0 < 2 ^ e) as Hp by (apply Z.pow_pos_nonneg; lia).
  assert (0 <= n / 2 ^ e) as Hq by (apply Z.div_pos; lia).
  apply Z.mul_nonneg_nonneg; [|lia].
  destruct (n mod 2 ^ e <? 2 ^ (e - 1)); [exact Hq|].
  destruct (2 ^ (e - 1) <? n mod 2 ^ e); [lia|].
  destruct (Z.even (n / 2 ^ e)); lia.
Qed.

Lemma timeout_ns_nonneg x : 0 <= x -> 0 <= timeout_ns_of x.
Proof.
  intros Hx. unfold timeout_ns_of, double_to_size_t.
  pose proof (round_double_nonneg x Hx) as H1.
  pose proof (round_double_nonneg (round_double x * 1000000) ltac:(lia)) as H2.
  destruct (round_double (round_double x * 1000000) <? 2 ^ 64); lia.
Qed.

Lemma timeout_ms_nonneg s : 0 <= timeout_ms s.
Proof. unfold timeout_ms, to_size_t. apply Z.mod_pos_bound. lia. Qed.

Lemma expiring_step (start : Z) (s : state) (te : Z * event) :
  0 <= start -> te.2 <> HostAbort ->
  start + timeout_ns_of (timeout_ms s) < te.1 < 2 ^ 64 ->
  expiring start s ->
  expiring start (step s te) /\
  (te.2 = Device ->
   steps_to_time_check (kernel (step s te))
     = Nat.pred (steps_to_time_check (kernel s))).
Proof.
  destruct te as [c e]. simpl fst; simpl snd.
  intros Hst Hne Hc (Hl & Hf & Ht & Hk).
  destruct e; [done | split; [done | discriminate] |].
  rewrite step_device. unfold expiring.
  rewrite length_kernel_step, flag_kernel_step.
  change (timeout_ms (kernel_barrier_step c s)) with
    (to_size_t (timeout_ (kernel_barrier_step c s))).
  rewrite timeout_kernel_step. fold (timeout_ms s).
  unfold kernel_barrier_step.
  assert ((item (comm_ s) 0 =? 1) = false) as Hfe by by apply Z.eqb_neq.
  pose proof (timeout_ns_nonneg (timeout_ms s) (timeout_ms_nonneg s)) as Hns.
  destruct Hk as [Hk | [Hk | [[ns Hk] | [Hk Hs]]]]; rewrite Hk; cbv beta iota.
  - rewrite Hfe.
    destruct (Z.ltb_spec 0 (timeout_ms s)); [|lia]. simpl.
    split; [|done]. do 3 (split; [done|]). right; left. done.
  - rewrite size_t_sub_small by lia.
    destruct (Z.ltb_spec (timeout_ns_of (timeout_ms s)) (c - start)); [|lia].
    split; [|done]. do 3 (split; [done|]).
    right; right; right. split; [done | by apply status_store].
  - simpl. split; [|done]. do 3 (split; [done|]). by left.
  - split; [|by rewrite Hk]. do 3 (split; [done|]).
    right; right; right. done.
Qed.

Lemma expiring_run (start : Z) (tr : list (Z * event)) : forall s : state,
  0 <= start ->
  Forall (fun te => te.2 <> HostAbort /\
                    start + timeout_ns_of (timeout_ms s) < te.1 < 2 ^ 64) tr ->
  expiring start s ->
  expiring start (run s tr) /\
  ((steps_to_time_check (kernel s) <= device_steps tr)%nat ->
     kernel (run s tr) = Returned).
Proof.
  induction tr as [|te tr IH]; intros s Hst Hall H.
  - split; [exact H|]. simpl. intros Hn.
    destruct H as (_ & _ & _ & [Hk | [Hk | [[ns Hk] | [Hk _]]]]);
      rewrite Hk in Hn; simpl in Hn; try lia. exact Hk.
  - inversion Hall as [|? ? [Hne Hc] Htr]; subst.
    destruct (expiring_step start s te Hst Hne Hc H) as [H' Hm].
    rewrite run_cons.
    rewrite <- (timeout_ms_step s te) in Htr.
    destruct (IH (step s te) Hst Htr H') as [IHe IHn].
    split; [exact IHe|]. intros Hn. apply IHn.
    destruct te as [c []]; simpl in Hn, Hne; try done.
    rewrite (Hm eq_refl). lia.
Qed.

(** X6: a timeout fires at the first time check past the deadline.  Take
    a baton with a timeout greater than 0 whose kernel is inside the loop
    and whose abort word is not 1.  If [abort()] is not called and every
    later event happens more than [timeout_ns] nanoseconds after the
    clock value the loop started with, the kernel stores TIMED_OUT and
    returns within three of its steps (end of the sleep, abort check,
    time check), and [status()] returns TIMED_OUT from then on. *)
Theorem timeout_fires (s : state) (start : Z) (tr : list (Z * event)) :
  length (comm_ s) = 2%nat -> item (comm_ s) 0 <> 1 -> 0 < timeout_ms s ->
  (kernel s = LoopTop start \/ kernel s = TimeCheck start \/
   exists ns, kernel s = Nanosleep start ns) ->
  0 <= start ->
  Forall (fun te => te.2 <> HostAbort /\
                    start + timeout_ns_of (timeout_ms s) < te.1 < 2 ^ 64) tr ->
  (3 <= device_steps tr)%nat ->
  kernel (run s tr) = Returned /\ status (run s tr) = TIMED_OUT.
Proof.
  intros Hl Hf Ht Hk Hst Hall Hn.
  assert (expiring start s) as He.
  { repeat split; try done. destruct Hk as [Hk | [Hk | Hk]]; auto. }
  destruct (expiring_run start tr s Hst Hall He) as [(_ & _ & _ & Hk') Hret].
  assert (kernel (run s tr) = Returned) as Hr.
  { apply Hret. destruct Hk as [Hk | [Hk | [ns Hk]]]; rewrite Hk; simpl; lia. }
  split; [exact Hr|].
  destruct Hk' as [Hk' | [Hk' | [[ns Hk'] | [_ Hs]]]]; congruence.
Qed.

(** A 50 ms baton that went to sleep at 49.5 ms and is next scheduled at
    51 ms. *)
Lemma timeout_fires_witness :
  let s := mkState [0; 1] 50 (Nanosleep 100 1000000) [RUNNING] in
  let tr := [(51000000, Device); (51000010, HostStatus);
             (51000020, Device); (51000030, Device)] in
  kernel (run s tr) = Returned /\ status (run s tr) = TIMED_OUT.
Proof.
  intros s tr.
  assert (item (comm_ s) 0 <> 1) as Hf by (vm_compute; discriminate).
  assert (0 < timeout_ms s) as Ht by (vm_compute; reflexivity).
  assert (Forall (fun te : Z * event =>
            te.2 <> HostAbort /\
            100 + timeout_ns_of (timeout_ms s) < te.1 < 2 ^ 64) tr) as Hall.
  { repeat constructor; try discriminate; vm_compute; reflexivity. }
  assert (3 <= device_steps tr)%nat as Hn by (simpl; lia).
  destruct (timeout_fires s 100 tr eq_refl Hf Ht
              (or_intror (or_intror (ex_intro _ 1000000 eq_refl)))
              ltac:(lia) Hall Hn) as (Hk & Hs).
  split; [exact Hk | exact Hs].
Defined.

Lemma aborted_only_after_abort_witness :
  let tr := [(0, HostAbort); (5, Device); (10, Device); (20, Device)] in
  (0, 0).1 <> 1 /\
  In ABORTED (dev_writes (run (launched (0, 0) 0) tr)) /\
  Exists (fun te : Z * event => te.2 = HostAbort) tr.
Proof.
  intros tr.
  assert ((0, 0).1 <> 1) as Hw by (simpl; lia).
  assert (In ABORTED (dev_writes (run (launched (0, 0) 0) tr))) as Hin
    by (vm_compute; tauto).
  split; [exact Hw|]. split; [exact Hin|].
  exact (aborted_only_after_abort (0, 0) 0 tr Hw Hin).
Defined.

Lemma terminal_status_is_stable_witness :
  let tr1 := [(0, Device); (10, Device); (20, Device); (60000000, Device)] in
  let tr2 := [(60000010, HostAbort); (60000020, Device); (60000030, HostStatus)] in
  is_terminal (status (run (launched (0, 0) 50) tr1)) /\
  status (run (launched (0, 0) 50) (tr1 ++ tr2)) = TIMED_OUT.
Proof.
  intros tr1 tr2.
  assert (is_terminal (status (run (launched (0, 0) 50) tr1))) as H
    by (left; reflexivity).
  split; [exact H|].
  rewrite (terminal_status_is_stable 0 50 tr1 tr2 H). reflexivity.
Defined.

(** X7: the abort word has one writer and one written value.  No step of
    the kernel changes it; after a call of [abort()] it is 1 in every
    later state; and as long as [abort()] is not called it keeps the
    value it had. *)
Theorem abort_word_has_one_writer (s : state) (tr : list (Z * event)) :
  length (comm_ s) = 2%nat ->
  (forall c, item (comm_ (kernel_barrier_step c s)) 0 = item (comm_ s) 0) /\
  item (comm_ (run (abort s) tr)) 0 = 1 /\
  (Forall (fun te => te.2 <> HostAbort) tr ->
     item (comm_ (run s tr)) 0 = item (comm_ s) 0).
Proof.
  intros Hl. split; [intros c; apply flag_kernel_step|]. split.
  - apply flag_run; [by rewrite length_abort | by apply flag_abort].
  - apply flag_run_no_abort.
Qed.

Lemma abort_word_has_one_writer_witness :
  let s := launched (7, 0) 50 in
  length (comm_ s) = 2%nat /\
  item (comm_ (run (abort s) [(1, Device); (2, Device); (3, Device)])) 0 = 1 /\
  item (comm_ (run s [(1, Device); (2, HostStatus); (3, Device)])) 0 = 7.
Proof.
  intros s.
  assert (length (comm_ s) = 2%nat) as Hl by reflexivity.
  split; [exact Hl|].
  destruct (abort_word_has_one_writer s [(1, Device); (2, Device); (3, Device)] Hl)
    as (_ & H1 & _).
  destruct (abort_word_has_one_writer s [(1, Device); (2, HostStatus); (3, Device)] Hl)
    as (_ & _ & H2).
  split; [exact H1|]. apply H2. repeat constructor; discriminate.
Defined.

(** X17: on storage whose status word was zero, [status()] tells where
    the kernel is, on every run: UNKNOWN exactly while the kernel is
    queued, RUNNING exactly while it is inside [kernel_barrier], a
    terminal value exactly when it has returned; it never returns
    anything but the four statuses. *)
Theorem status_tracks_kernel (w0 t : Z) (tr : list (Z * event)) :
  let s := run (launched (w0, 0) t) tr in
  (status s = UNKNOWN <-> kernel s = Queued) /\
  (status s = RUNNING <-> kernel s <> Queued /\ kernel s <> Returned) /\
  (is_terminal (status s) <-> kernel s = Returned) /\
  is_enumerator (status s).
Proof.
  intros s. destruct (consistent_reachable (w0, 0) t tr) as [_ H].
  fold s in H. simpl in H. unfold is_terminal, is_enumerator.
  destruct (kernel s) eqn:Hk.
  - destruct H as [_ ->]. unfold UNKNOWN, RUNNING, TIMED_OUT, ABORTED.
    repeat split; try done; try lia; intros; (lia || intuition (try done; lia)).
  - destruct H as [_ ->]. unfold UNKNOWN, RUNNING, TIMED_OUT, ABORTED.
    repeat split; try done; try lia; intros; (lia || intuition (try done; lia)).
  - destruct H as [_ ->]. unfold UNKNOWN, RUNNING, TIMED_OUT, ABORTED.
    repeat split; try done; try lia; intros; (lia || intuition (try done; lia)).
  - destruct H as (_ & -> & _). unfold UNKNOWN, RUNNING, TIMED_OUT, ABORTED.
    repeat split; try done; try lia; intros; (lia || intuition (try done; lia)).
  - destruct H as [_ ->]. unfold UNKNOWN, RUNNING, TIMED_OUT, ABORTED.
    repeat split; try done; try lia; intros; (lia || intuition (try done; lia)).
  - destruct H as [(_ & -> & _) | (_ & -> & _)];
      unfold UNKNOWN, RUNNING, TIMED_OUT, ABORTED;
      repeat split; try done; try lia; intros; (lia || intuition (try done; lia)).
Qed.

(** * The flash attention front end *)

Import pytorch_flash.

Example mha_fwd_example :
  mha_fwd_checks
    (mkFwdArgs (mkTensor kHalf true [2; 100; 8; 64] [51200; 512; 64; 1])
               (mkTensor kHalf true [2; 77; 4; 64] [19712; 256; 64; 1])
               (mkTensor kHalf true [2; 77; 4; 64] [19712; 256; 64; 1])
               None false true)
  = Done (mkFwdResult [2; 100; 8; 64] [2; 100; 8; 64] [2; 77; 4; 64] [2; 77; 4; 64]
            [2; 8; 100] [2; 8; 100; 77]
            (Some (CALL_FWD kHalf 3 16 64 16 true true true, mkDim3 7 16 1))).
Proof. vm_compute. reflexivity. Qed.

(** With dropout the counter offset [batch_size * num_heads * 32] is an
    [int] product: 65536 * 2048 * 32 is 2^32, and the call that passes
    every check without dropout has no defined behaviour with it. *)
Example mha_fwd_counter_offset_overflows :
  let t := mkTensor kHalf true [65536; 1; 2048; 16] [32768; 32768; 16; 1] in
  mha_fwd_checks (mkFwdArgs t t t None true false) = Undefined /\
  exists r, mha_fwd_checks (mkFwdArgs t t t None false false) = Done r.
Proof. split; [vm_compute; reflexivity | eexists; vm_compute; reflexivity]. Qed.

(** ** Outcomes *)

Lemma bind_Done {A B : Type} (m : outcome A) (f : A -> outcome B) (b : B) :
  m ≫= f = Done b -> exists a, m = Done a /\ f a = Done b.
Proof. destruct m as [a| |]; simpl; intros H; try discriminate. by exists a. Qed.

Lemma TORCH_CHECK_Done (cond : bool) (msg : string) (u : unit) :
  TORCH_CHECK cond msg = Done u -> cond = true.
Proof. destruct cond; simpl; [done | discriminate]. Qed.

Lemma at_index_Done (l : list Z) (i : nat) (z : Z) :
  at_index l i = Done z -> l !! i = Some z.
Proof. unfold at_index. destruct (l !! i); intros H; by inversion H. Qed.

Lemma int_result_Done (z r : Z) :
  int_result z = Done r -> r = z /\ INT_MIN <= z <= INT_MAX.
Proof.
  unfold int_result.
  destruct (Z.leb_spec INT_MIN z); destruct (Z.leb_spec z INT_MAX); simpl;
    intros Hd; inversion Hd. lia.
Qed.

Lemma int_result_in_range (z : Z) :
  INT_MIN <= z <= INT_MAX -> int_result z = Done z.
Proof.
  intros Hr. unfold int_result.
  destruct (Z.leb_spec INT_MIN z); destruct (Z.leb_spec z INT_MAX); simpl; try lia.
  reflexivity.
Qed.

Lemma int_rem_Done (a b r : Z) :
  int_rem a b = Done r -> b <> 0 /\ r = Z.rem a b.
Proof.
  unfold int_rem. destruct (Z.eqb_spec b 0); simpl; [discriminate|].
  destruct ((a =? INT_MIN) && (b =? -1)); intros Hd; inversion Hd. done.
Qed.

Lemma to_int_small (z : Z) : INT_MIN <= z <= INT_MAX -> to_int z = z.
Proof.
  unfold to_int, INT_MIN, INT_MAX. intros H.
  rewrite Z.mod_small by lia. lia.
Qed.

Lemma to_int_range (z : Z) : INT_MIN <= to_int z <= INT_MAX.
Proof.
  unfold to_int, INT_MIN, INT_MAX.
  pose proof (Z.mod_pos_bound (z + 2 ^ 31) (2 ^ 32) ltac:(lia)). lia.
Qed.

(** ** [round_multiple] *)

Lemma round_multiple_value (x m : Z) :
  0 <= x -> 0 < m -> x + m <= INT_MAX ->
  round_multiple x m = Done ((x + m - 1) / m * m) /\
  x <= (x + m - 1) / m * m < x + m.
Proof.
  intros Hx Hm Hmax.
  assert (x <= (x + m - 1) / m * m < x + m) as Hr.
  { pose proof (Z.div_mod (x + m - 1) m ltac:(lia)) as Hdm.
    pose proof (Z.mod_pos_bound (x + m - 1) m Hm) as Hb. lia. }
  split; [|exact Hr].
  unfold round_multiple, INT_MAX, INT_MIN in *.
  rewrite int_result_in_range by (unfold INT_MIN, INT_MAX; lia). simpl.
  rewrite int_result_in_range by (unfold INT_MIN, INT_MAX; lia). simpl.
  unfold int_div.
  destruct (Z.eqb_spec m 0); [lia|].
  destruct (Z.eqb_spec m (-1)); [lia|]. rewrite andb_false_r. simpl.
  rewrite Z.quot_div_nonneg by lia.
  apply int_result_in_range. unfold INT_MIN, INT_MAX. lia.
Qed.

(** X8: for a size x >= 0 and a block m > 0 with x + m within [int],
    [round_multiple x m] is the least multiple of m that is not below x;
    it exceeds x by less than m. *)
Theorem round_multiple_least (x m : Z) :
  0 <= x -> 0 < m -> x + m <= INT_MAX ->
  exists r, round_multiple x m = Done r /\
            (m | r) /\ x <= r < x + m /\
            (forall r', (m | r') -> x <= r' -> r <= r').
Proof.
  intros Hx Hm Hmax.
  destruct (round_multiple_value x m Hx Hm Hmax) as [Hv Hr].
  exists ((x + m - 1) / m * m). split; [exact Hv|].
  split; [by exists ((x + m - 1) / m)|]. split; [exact Hr|].
  intros r' [j ->] Hle.
  assert ((x + m - 1) / m < j + 1); [|nia].
  apply Z.div_lt_upper_bound; [lia|]. nia.
Qed.

Lemma round_multiple_least_witness :
  0 <= 100 /\ 0 < 128 /\ 100 + 128 <= INT_MAX /\
  round_multiple 100 128 = Done 128.
Proof.
  assert (0 <= 100) as H1 by lia. assert (0 < 128) as H2 by lia.
  assert (100 + 128 <= INT_MAX) as H3 by (unfold INT_MAX; lia).
  do 3 (split; [assumption|]).
  destruct (round_multiple_least 100 128 H1 H2 H3) as (r & Hr & _).
  rewrite Hr. vm_compute in Hr. symmetry. exact Hr.
Defined.

(** X9: rounding composes.  When m divides n and x + m + n is within
    [int], rounding x up to a multiple of m and the result up to a
    multiple of n gives what rounding x up to a multiple of n gives (so
    the head size rounded to 8 and then to 32 is the head size rounded to
    32); with n = m: a rounded value is left as it is. *)
Theorem round_multiple_twice (x m n : Z) :
  0 <= x -> 0 < m -> (m | n) -> 0 < n -> x + m + n <= INT_MAX ->
  exists y, round_multiple x m = Done y /\
            round_multiple y n = round_multiple x n.
Proof.
  intros Hx Hm Hdiv Hn Hmax.
  assert (m <= n) as Hmn by (apply Z.divide_pos_le; done).
  destruct (round_multiple_least x m Hx Hm ltac:(lia)) as (y & Hy & Hmy & Hry & Hly).
  exists y. split; [exact Hy|].
  destruct (round_multiple_least x n Hx Hn ltac:(lia)) as (r & Hr & Hnr & Hrr & Hlr).
  assert (y <= r) as Hyr.
  { apply Hly; [|lia]. by apply (Z.divide_trans m n r). }
  destruct (round_multiple_least y n ltac:(lia) Hn ltac:(lia)) as (r2 & Hr2 & Hnr2 & Hrr2 & Hlr2).
  rewrite Hr, Hr2. f_equal.
  apply Z.le_antisymm.
  - apply Hlr2; [exact Hnr | exact Hyr].
  - apply Hlr; [exact Hnr2 | lia].
Qed.

Lemma round_multiple_twice_witness :
  0 <= 40 /\ (8 | 32) /\ 40 + 8 + 32 <= INT_MAX /\
  exists y, round_multiple 40 8 = Done y /\ round_multiple y 32 = Done 64.
Proof.
  assert (0 <= 40) as H1 by lia. assert (0 < 8) as H2 by lia.
  assert ((8 | 32)) as H3 by (exists 4; lia). assert (0 < 32) as H4 by lia.
  assert (40 + 8 + 32 <= INT_MAX) as H5 by (unfold INT_MAX; lia).
  split; [exact H1|]. split; [exact H3|]. split; [exact H5|].
  destruct (round_multiple_twice 40 8 32 H1 H2 H3 H4 H5) as (y & Hy & Hyy).
  exists y. split; [exact Hy|]. rewrite Hyy. reflexivity.
Defined.

(** ** [check_gpu_arch] *)

Lemma check_gpu_arch_after_first (env : environment) (name : string) (g : globals) :
  fa_gcn_arch_override_flag g = true ->
  (check_gpu_arch env name g).2 = g.
Proof. intros H. unfold check_gpu_arch, call_once_init. by rewrite H. Qed.

Lemma check_gpu_arch_sets_flag (env : environment) (name : string) (g : globals) :
  fa_gcn_arch_override_flag (check_gpu_arch env name g).2 = true.
Proof.
  unfold check_gpu_arch, call_once_init. simpl.
  destruct (fa_gcn_arch_override_flag g) eqn:H; [exact H | reflexivity].
Qed.

Lemma check_gpu_arch_calls_after_first calls : forall g,
  fa_gcn_arch_override_flag g = true -> check_gpu_arch_calls calls g = g.
Proof.
  induction calls as [|c calls IH]; intros g H; [reflexivity|].
  cbn [check_gpu_arch_calls].
  rewrite check_gpu_arch_after_first by exact H. by apply IH.
Qed.

Lemma check_gpu_arch_outcome (env : environment) (name : string) (g : globals) :
  fa_gcn_arch_override_flag g = true ->
  (check_gpu_arch env name g).1 =
    match fa_override_arch g with
    | Some p =>
        TORCH_CHECK (String.eqb mi200 (c_str env p))
          (arch_message +:+ name +:+ " override as " +:+ c_str env p)
    | None => TORCH_CHECK (String.eqb mi200 name) (arch_message +:+ name)
    end.
Proof. intros H. unfold check_gpu_arch, call_once_init. by rewrite H. Qed.

Lemma check_gpu_arch_fresh (env : environment) (name : string) :
  (check_gpu_arch env name globals_at_load).1 =
    match getenv_value env with
    | Some override =>
        TORCH_CHECK (String.eqb mi200 override)
          (arch_message +:+ name +:+ " override as " +:+ override)
    | None => TORCH_CHECK (String.eqb mi200 name) (arch_message +:+ name)
    end.
Proof. destruct env as [[p|] c]; reflexivity. Qed.

Lemma check_gpu_arch_first_pointer (env : environment) (name : string) :
  fa_override_arch (check_gpu_arch env name globals_at_load).2 = getenv env.
Proof. reflexivity. Qed.

(** X10: [std::getenv] is called once, and what is kept is its pointer.
    After the first call of [check_gpu_arch] in a process, with
    environment [env1], however many calls follow and whatever
    [std::getenv] would return at each of them, the globals stay as the
    first call left them: the stored pointer is the one of the first
    call, and the warning has been issued once if the variable was set
    then and never otherwise.  A later call, in environment [env],
    compares the string that is at the first pointer now (the device name
    if the pointer is null), so it decides as the first call would have
    for the same device whenever the string at that address is as it was;
    the value the variable has now plays no part. *)
Theorem check_gpu_arch_reads_env_once
    (env1 : environment) (name1 : string)
    (calls : list (environment * string))
    (env : environment) (name : string) :
  let g1 := (check_gpu_arch env1 name1 globals_at_load).2 in
  let gn := check_gpu_arch_calls calls g1 in
  gn = g1 /\
  fa_override_arch gn = getenv env1 /\
  warnings gn = match getenv env1 with
                | Some _ => [override_warning]
                | None => []
                end /\
  (check_gpu_arch env name gn).2 = g1 /\
  (check_gpu_arch env name gn).1 =
    match getenv env1 with
    | Some p =>
        TORCH_CHECK (String.eqb mi200 (c_str env p))
          (arch_message +:+ name +:+ " override as " +:+ c_str env p)
    | None => TORCH_CHECK (String.eqb mi200 name) (arch_message +:+ name)
    end /\
  ((forall p, getenv env1 = Some p -> c_str env p = c_str env1 p) ->
   (check_gpu_arch env name gn).1 = (check_gpu_arch env1 name globals_at_load).1).
Proof.
  intros g1 gn.
  assert (fa_gcn_arch_override_flag g1 = true) as Hf
    by apply check_gpu_arch_sets_flag.
  assert (gn = g1) as Hg by (by apply check_gpu_arch_calls_after_first).
  assert (fa_override_arch g1 = getenv env1) as Hp
    by apply check_gpu_arch_first_pointer.
  assert ((check_gpu_arch env name g1).1 =
          match getenv env1 with
          | Some p =>
              TORCH_CHECK (String.eqb mi200 (c_str env p))
                (arch_message +:+ name +:+ " override as " +:+ c_str env p)
          | None => TORCH_CHECK (String.eqb mi200 name) (arch_message +:+ name)
          end) as Hd
    by (rewrite (check_gpu_arch_outcome env name g1 Hf), Hp; reflexivity).
  rewrite Hg.
  split; [reflexivity|]. split; [exact Hp|].
  split; [unfold g1; destruct env1 as [[p|] c]; reflexivity|].
  split; [by apply check_gpu_arch_after_first|].
  split; [exact Hd|].
  intros Hsame. rewrite Hd, check_gpu_arch_fresh. unfold getenv_value.
  destruct (getenv env1) as [p|] eqn:He; cbn [fmap option_fmap option_map];
    [rewrite (Hsame p eq_refl)|]; reflexivity.
Qed.

(** The variable is set to the MI200 name at the first call, on a device
    that is not one.  Later the variable is unset and the bytes at the
    old address read "gfx1100": the call is decided by those bytes and
    raises.  Or the variable is set anew to "gfx1100", at another
    address, and the old bytes are as they were: the call passes as the
    first one did. *)
Lemma check_gpu_arch_reads_env_once_witness :
  let env1 := set_env 7%N mi200 in
  let env2 := mkEnvironment None (fun _ => "gfx1100") in
  let env3 := mkEnvironment (Some 9%N)
                (fun p => if (p =? 9)%N then "gfx1100" else mi200) in
  let g1 := (check_gpu_arch env1 "gfx1100" globals_at_load).2 in
  (check_gpu_arch env1 "gfx1100" globals_at_load).1 = Done tt /\
  fa_override_arch g1 = Some 7%N /\
  warnings g1 = [override_warning] /\
  (check_gpu_arch env2 mi200 g1).2 = g1 /\
  (check_gpu_arch env2 mi200 g1).1 =
    Raise (arch_message +:+ mi200 +:+ " override as " +:+ "gfx1100") /\
  (forall p, getenv env1 = Some p -> c_str env3 p = c_str env1 p) /\
  (check_gpu_arch env3 "gfx1100" g1).1 = Done tt.
Proof.
  intros env1 env2 env3 g1.
  split; [reflexivity|].
  destruct (check_gpu_arch_reads_env_once env1 "gfx1100" [] env2 mi200)
    as (_ & Hp & Hw & Hg & Hd & _).
  destruct (check_gpu_arch_reads_env_once env1 "gfx1100" [] env3 "gfx1100")
    as (_ & _ & _ & _ & _ & Hsame).
  assert (forall p, getenv env1 = Some p -> c_str env3 p = c_str env1 p) as H3
    by (intros p [= <-]; reflexivity).
  split; [exact Hp|]. split; [exact Hw|]. split; [exact Hg|].
  split; [etransitivity; [exact Hd | reflexivity]|].
  split; [exact H3|].
  etransitivity; [exact (Hsame H3) | reflexivity].
Defined.

(** X11: what [check_gpu_arch] accepts.  In a fresh process the call
    returns normally exactly when the override, if the environment
    variable is set, and otherwise the name of the device, is the string
    "gfx90a:sramecc+:xnack-"; with the variable set the name of the
    device plays no part.  Otherwise it raises the message that ends
    with the device name and, with an override, " override as " and the
    override. *)
Theorem check_gpu_arch_accepts (env : environment) (name : string) :
  let value := getenv_value env in
  let r := (check_gpu_arch env name globals_at_load).1 in
  (r = Done tt <-> default name value = mi200) /\
  (default name value <> mi200 ->
     r = Raise match value with
               | Some override =>
                   arch_message +:+ name +:+ " override as " +:+ override
               | None => arch_message +:+ name
               end).
Proof.
  intros value r. subst r. rewrite check_gpu_arch_fresh. fold value.
  destruct value as [o|]; cbn [default]; unfold TORCH_CHECK.
  - destruct (String.eqb_spec mi200 o) as [He|He].
    + split; [split; [done | done] | done].
    + split; [split; [discriminate | intros H; by symmetry in H] |].
      intros _. reflexivity.
  - destruct (String.eqb_spec mi200 name) as [He|He].
    + split; [split; [done | done] | done].
    + split; [split; [discriminate | intros H; by symmetry in H] |].
      intros _. reflexivity.
Qed.

(** ** [mha_fwd] *)

Ltac bind_inv H x Hx :=
  apply bind_Done in H as (x & Hx & H); cbv beta zeta in H.

Ltac check_inv H Hx :=
  let u := fresh "u" in
  apply bind_Done in H as (u & Hx & H); cbv beta zeta in H;
  apply TORCH_CHECK_Done in Hx; clear u.

Lemma CHECK_SHAPE_Done (x : Tensor) (shape : list Z) (name args : string) (u : unit) :
  CHECK_SHAPE x shape name args = Done u -> sizes x = shape.
Proof.
  unfold CHECK_SHAPE. intros H. apply TORCH_CHECK_Done in H.
  by apply bool_decide_eq_true in H.
Qed.

Lemma empty_Done (shape l : list Z) :
  empty shape = Done l -> l = shape /\ Forall (Z.le 0) shape.
Proof.
  unfold empty. destruct (forallb (Z.leb 0) shape) eqn:Hf; intros H; inversion H.
  subst l. split; [reflexivity|].
  apply Forall_forall. intros z Hz.
  rewrite forallb_forall in Hf. apply Z.leb_le, Hf.
  by apply list_elem_of_In.
Qed.

Lemma size_Done (x : Tensor) (i : nat) (z : Z) :
  size x (Z.of_nat i) = Done z -> sizes x !! i = Some z.
Proof.
  unfold size, wrap_dim. intros H.
  destruct ((- Z.of_nat (length (sizes x)) <=? Z.of_nat i) &&
            (Z.of_nat i <? Z.of_nat (length (sizes x)))); [|discriminate].
  simpl in H. destruct (Z.ltb_spec (Z.of_nat i) 0); [lia|].
  rewrite Nat2Z.id in H. destruct (sizes x !! i); inversion H. reflexivity.
Qed.

(** Everything a normal return of the checks tells. *)
Lemma mha_fwd_checks_inv (a : fwd_args) (r : fwd_result) :
  mha_fwd_checks a = Done r ->
  half_or_bfloat16 (dtype (q a)) = true /\
  dtype (k a) = dtype (q a) /\ dtype (v a) = dtype (q a) /\
  is_cuda (q a) = true /\ is_cuda (k a) = true /\ is_cuda (v a) = true /\
  stride (q a) (-1) = Done 1 /\ stride (k a) (-1) = Done 1 /\
  stride (v a) (-1) = Done 1 /\
  exists B Sq H D Sk Hk,
    sizes (q a) = [B; Sq; H; D] /\
    sizes (k a) = [B; Sk; Hk; D] /\
    sizes (v a) = [B; Sk; Hk; D] /\
    0 < B <= INT_MAX /\ 0 <= Sq <= INT_MAX /\ 0 <= H <= INT_MAX /\
    0 <= Sk <= INT_MAX /\ INT_MIN <= Hk <= INT_MAX /\ INT_MIN <= D <= 256 /\
    Z.rem D 8 = 0 /\ Hk <> 0 /\ Z.rem H Hk = 0 /\
    (forall out, out_ a = Some out ->
       dtype out = dtype (q a) /\ is_cuda out = true /\
       stride out (-1) = Done 1 /\ sizes out = [B; Sq; H; D]) /\
    fwd_out r = [B; Sq; H; D] /\ fwd_q_padded r = [B; Sq; H; D] /\
    fwd_k_padded r = [B; Sk; Hk; D] /\ fwd_v_padded r = [B; Sk; Hk; D] /\
    fwd_softmax_lse r = [B; H; Sq] /\ fwd_softmax_fa r = [B; H; Sq; Sk] /\
    fwd_launch r =
      match fwd_dispatch (dtype (q a)) (if Sq =? 1 then false else is_causal a) D with
      | Some kern =>
          Some (kern, mkDim3 (to_unsigned (Z.quot (Sq + BLOCK_M - 1) BLOCK_M))
                             (to_unsigned (B * H)) 1)
      | None => None
      end.
Proof.
  intros H0. unfold mha_fwd_checks in H0. cbv beta zeta in H0.
  check_inv H0 Hdq. check_inv H0 Hdk. check_inv H0 Hdv.
  apply bool_decide_eq_true in Hdk, Hdv.
  check_inv H0 Hcq. check_inv H0 Hck. check_inv H0 Hcv.
  bind_inv H0 sq Hsq. check_inv H0 Hsq1. apply Z.eqb_eq in Hsq1. subst sq.
  bind_inv H0 sk Hsk. check_inv H0 Hsk1. apply Z.eqb_eq in Hsk1. subst sk.
  bind_inv H0 sv Hsv. check_inv H0 Hsv1. apply Z.eqb_eq in Hsv1. subst sv.
  bind_inv H0 s0 Hs0. bind_inv H0 s1 Hs1. bind_inv H0 s2 Hs2. bind_inv H0 s3 Hs3.
  bind_inv H0 k1 Hk1. bind_inv H0 k2 Hk2.
  check_inv H0 Hb. apply Z.ltb_lt in Hb.
  bind_inv H0 r8 Hr8. check_inv H0 Hr8z. apply Z.eqb_eq in Hr8z. subst r8.
  check_inv H0 Hle. apply Z.leb_le in Hle.
  bind_inv H0 rh Hrh. check_inv H0 Hrhz. apply Z.eqb_eq in Hrhz. subst rh.
  apply bind_Done in H0 as (u1 & Hshq & H0). apply CHECK_SHAPE_Done in Hshq.
  apply bind_Done in H0 as (u2 & Hshk & H0). apply CHECK_SHAPE_Done in Hshk.
  apply bind_Done in H0 as (u3 & Hshv & H0). apply CHECK_SHAPE_Done in Hshv.
  clear u1 u2 u3.
  bind_inv H0 out Hout.
  bind_inv H0 hs Hhs. bind_inv H0 hsr Hhsr. bind_inv H0 sqr Hsqr. bind_inv H0 skr Hskr.
  bind_inv H0 counter_offset Hoffset.
  (* the sizes read from q and k are the ones the shape checks compare with *)
  apply at_index_Done in Hs0, Hs1, Hs2, Hs3.
  apply (size_Done (k a) 1) in Hk1. apply (size_Done (k a) 2) in Hk2.
  rewrite Hshq in Hs0, Hs1, Hs2, Hs3. simpl in Hs0, Hs1, Hs2, Hs3.
  rewrite Hshk in Hk1, Hk2. simpl in Hk1, Hk2.
  injection Hs0 as Hs0. injection Hs1 as Hs1. injection Hs2 as Hs2.
  injection Hs3 as Hs3. injection Hk1 as Hk1. injection Hk2 as Hk2.
  set (B := to_int s0) in *. set (Sq := to_int s1) in *.
  set (H := to_int s2) in *. set (D := to_int s3) in *.
  set (Sk := to_int k1) in *. set (Hk := to_int k2) in *.
  rewrite Hshq, Hshk, Hshv in H0.
  bind_inv H0 q_t Hqt. injection Hqt as <-.
  bind_inv H0 k_t Hkt. injection Hkt as <-.
  bind_inv H0 v_t Hvt. injection Hvt as <-.
  bind_inv H0 output_t Hot.
  bind_inv H0 M HM. apply empty_Done in HM as [-> HMpos].
  bind_inv H0 qt2 Hqt2. injection Hqt2 as <-.
  bind_inv H0 qt0 Hqt0. injection Hqt0 as <-.
  bind_inv H0 qt1 Hqt1. injection Hqt1 as <-.
  bind_inv H0 sfa Hsfa. apply empty_Done in Hsfa as [-> Hsfapos].
  bind_inv H0 qt3 Hqt3. injection Hqt3 as <-.
  bind_inv H0 q_padded Hqp. injection Hqp as <-.
  bind_inv H0 k_padded Hkp. injection Hkp as <-.
  bind_inv H0 v_padded Hvp. injection Hvp as <-.
  bind_inv H0 out' Hout'.
  injection H0 as <-.
  apply int_rem_Done in Hr8 as [_ Hr8]. apply int_rem_Done in Hrh as [Hk0 Hrh].
  (* the sizes of out *)
  assert (out = [B; Sq; H; D] /\
          forall o, out_ a = Some o ->
            dtype o = dtype (q a) /\ is_cuda o = true /\
            stride o (-1) = Done 1 /\ sizes o = [B; Sq; H; D]) as [-> Hgiven].
  { destruct (out_ a) as [o|].
    - check_inv Hout Hdo. apply bool_decide_eq_true in Hdo.
      check_inv Hout Hco.
      bind_inv Hout so Hso. check_inv Hout Hso1. apply Z.eqb_eq in Hso1. subst so.
      apply bind_Done in Hout as (u & Hsho & Hout). apply CHECK_SHAPE_Done in Hsho.
      bind_inv Hout r' Hr'. apply int_rem_Done in Hr' as [_ ->].
      rewrite <- Hr8 in Hout. simpl in Hout. injection Hout as <-.
      split; [exact Hsho|]. intros o' [= <-]. done.
    - injection Hout as <-. split; [exact Hshq | discriminate]. }
  cbn [permute_0213] in Hot. injection Hot as <-.
  cbn [permute_0213] in Hout'. injection Hout' as <-.
  pose proof (to_int_range s0). pose proof (to_int_range s1).
  pose proof (to_int_range s2). pose proof (to_int_range s3).
  pose proof (to_int_range k1). pose proof (to_int_range k2).
  rewrite !Forall_cons in HMpos. destruct HMpos as (_ & HH & HSq & _).
  rewrite !Forall_cons in Hsfapos. destruct Hsfapos as (_ & _ & _ & HSk & _).
  rewrite (to_int_small D) by done.
  do 9 (split; [done|]).
  exists B, Sq, H, D, Sk, Hk.
  repeat (split; [done || lia |]).
  reflexivity.
Qed.

Lemma mha_fwd_Done (env : environment) (name : string) (g : globals)
    (a : fwd_args) (r : fwd_result) :
  (mha_fwd env name g a).1 = Done r ->
  (check_gpu_arch env name g).1 = Done tt /\ mha_fwd_checks a = Done r.
Proof.
  unfold mha_fwd. cbn [fst]. intros H.
  apply bind_Done in H as ([] & H1 & H2). done.
Qed.

(** X12: what a normal return of [mha_fwd] guarantees.  q has dtype half
    or bfloat16 and k and v have the dtype of q; the three are CUDA
    tensors whose last stride is 1; q has four dimensions
    (B, Sq, H, D), k and v both have the shape (B, Sk, Hk, D) with the B
    and D of q; B > 0, D is a multiple of 8 and at most 256, Hk is not 0
    and divides H, and the sizes fit [int]; an [out_] that was passed has
    the dtype and shape of q.  The returned tensors have the shapes of q
    (out and q_padded), of k (k_padded and v_padded), (B, H, Sq)
    (softmax_lse) and (B, H, Sq, Sk). *)
Theorem mha_fwd_postcondition (env : environment) (name : string)
    (g : globals) (a : fwd_args) (r : fwd_result) :
  (mha_fwd env name g a).1 = Done r ->
  half_or_bfloat16 (dtype (q a)) = true /\
  dtype (k a) = dtype (q a) /\ dtype (v a) = dtype (q a) /\
  is_cuda (q a) = true /\ is_cuda (k a) = true /\ is_cuda (v a) = true /\
  stride (q a) (-1) = Done 1 /\ stride (k a) (-1) = Done 1 /\
  stride (v a) (-1) = Done 1 /\
  exists B Sq H D Sk Hk,
    sizes (q a) = [B; Sq; H; D] /\
    sizes (k a) = [B; Sk; Hk; D] /\
    sizes (v a) = [B; Sk; Hk; D] /\
    0 < B <= INT_MAX /\ 0 <= Sq <= INT_MAX /\ 0 <= H <= INT_MAX /\
    0 <= Sk <= INT_MAX /\ Hk <= INT_MAX /\ D <= 256 /\
    Z.rem D 8 = 0 /\ Hk <> 0 /\ Z.rem H Hk = 0 /\
    (forall out, out_ a = Some out ->
       dtype out = dtype (q a) /\ is_cuda out = true /\
       stride out (-1) = Done 1 /\ sizes out = [B; Sq; H; D]) /\
    fwd_out r = [B; Sq; H; D] /\ fwd_q_padded r = [B; Sq; H; D] /\
    fwd_k_padded r = [B; Sk; Hk; D] /\ fwd_v_padded r = [B; Sk; Hk; D] /\
    fwd_softmax_lse r = [B; H; Sq] /\ fwd_softmax_fa r = [B; H; Sq; Sk].
Proof.
  intros H0. apply mha_fwd_Done in H0 as [_ H0].
  destruct (mha_fwd_checks_inv a r H0)
    as (? & ? & ? & ? & ? & ? & ? & ? & ? & B & Sq & H & D & Sk & Hk & Hrest).
  do 9 (split; [done|]).
  exists B, Sq, H, D, Sk, Hk.
  destruct Hrest as (? & ? & ? & ? & ? & ? & ? & ? & ? & ? & ? & ? & ? & ? & ? & ? & ? & ? & ? & _).
  repeat (split; [done || lia |]). done.
Qed.

Lemma mha_fwd_postcondition_witness :
  let a := mkFwdArgs (mkTensor kHalf true [2; 100; 8; 64] [51200; 512; 64; 1])
                     (mkTensor kHalf true [2; 77; 4; 64] [19712; 256; 64; 1])
                     (mkTensor kHalf true [2; 77; 4; 64] [19712; 256; 64; 1])
                     None false true in
  exists r, (mha_fwd unset_env mi200 globals_at_load a).1 = Done r /\
            dtype (k a) = dtype (q a) /\ is_cuda (v a) = true.
Proof.
  intros a.
  destruct (mha_fwd unset_env mi200 globals_at_load a).1 as [r| |] eqn:Hr;
    [|vm_compute in Hr; discriminate | vm_compute in Hr; discriminate].
  exists r. split; [reflexivity|].
  destruct (mha_fwd_postcondition unset_env mi200 globals_at_load a r Hr)
    as (_ & Hk & _ & _ & _ & Hv & _).
  split; [exact Hk | exact Hv].
Defined.

(** X13: which kernel [mha_fwd] runs.  On a normal return with q of
    shape (B, Sq, H, D): when D is 16, 32, 64 or 128 the forward kernel
    is called once, instantiated for the dtype of q, with BLOCK_DMODEL =
    D, 16 x 16 blocks, the causal stage (3) exactly when [is_causal] was
    passed and Sq is not 1 and the non-causal stage (1) otherwise, on a
    grid of ceil(Sq / 16) by B * H (as [unsigned int]) by 1; for every
    other D, which includes the multiples of 8 up to 256 that pass the
    checks, no kernel is called at all. *)
Theorem mha_fwd_kernel_choice (env : environment) (name : string)
    (g : globals) (a : fwd_args) (r : fwd_result) (B Sq H D : Z) :
  (mha_fwd env name g a).1 = Done r ->
  sizes (q a) = [B; Sq; H; D] ->
  let stage := if is_causal a && negb (Sq =? 1) then kFwdUseCausal
               else kFwdNoCausal in
  let grid := mkDim3 ((Sq + 15) / 16) (to_unsigned (B * H)) 1 in
  (D = 16 \/ D = 32 \/ D = 64 \/ D = 128 ->
     fwd_launch r =
       Some (CALL_FWD (dtype (q a)) stage 16 D 16 true true true, grid)) /\
  (D <> 16 -> D <> 32 -> D <> 64 -> D <> 128 -> fwd_launch r = None) /\
  16 * (dim_x grid - 1) < Sq <= 16 * dim_x grid.
Proof.
  intros H0 Hq stage grid. apply mha_fwd_Done in H0 as [_ H0].
  destruct (mha_fwd_checks_inv a r H0)
    as (Hdt & _ & _ & _ & _ & _ & _ & _ & _ & B' & Sq' & H' & D' & Sk & Hk & Hrest).
  destruct Hrest as (Hq' & _ & _ & _ & HSq & _ & _ & _ & _ & _ & _ & _ & _ & _ & _ & _ & _ & _ & _ & Hl).
  rewrite Hq in Hq'. injection Hq' as <- <- <- <-.
  assert (to_unsigned (Z.quot (Sq + BLOCK_M - 1) BLOCK_M) = (Sq + 15) / 16) as Hx.
  { unfold to_unsigned, BLOCK_M, INT_MAX in *.
    rewrite Z.quot_div_nonneg by lia.
    replace (Sq + 16 - 1) with (Sq + 15) by lia.
    apply Z.mod_small. split; [apply Z.div_pos; lia|].
    apply Z.div_lt_upper_bound; lia. }
  rewrite Hx in Hl.
  assert ((if Sq =? 1 then false else is_causal a)
          = is_causal a && negb (Sq =? 1)) as Hc
    by (destruct (Sq =? 1), (is_causal a); reflexivity).
  rewrite Hc in Hl.
  assert (fwd_dispatch (dtype (q a)) (is_causal a && negb (Sq =? 1)) D
          = fwd_by_d_head (dtype (q a)) stage D) as Hd.
  { unfold fwd_dispatch, stage, half_or_bfloat16 in *.
    destruct (dtype (q a)); try discriminate;
      destruct (is_causal a && negb (Sq =? 1)); reflexivity. }
  rewrite Hd in Hl.
  split; [|split].
  - intros [-> | [-> | [-> | ->]]]; exact Hl.
  - intros H16 H32 H64 H128. rewrite Hl. unfold fwd_by_d_head.
    destruct (Z.eqb_spec D 16); [done|]. destruct (Z.eqb_spec D 32); [done|].
    destruct (Z.eqb_spec D 64); [done|]. destruct (Z.eqb_spec D 128); done.
  - cbn [dim_x grid].
    pose proof (Z.div_mod (Sq + 15) 16 ltac:(lia)).
    pose proof (Z.mod_pos_bound (Sq + 15) 16 ltac:(lia)). lia.
Qed.

(** A head size of 8 passes every check and runs no kernel. *)
Lemma mha_fwd_kernel_choice_witness :
  let a := mkFwdArgs (mkTensor kBFloat16 true [1; 33; 2; 8] [528; 16; 8; 1])
                     (mkTensor kBFloat16 true [1; 33; 2; 8] [528; 16; 8; 1])
                     (mkTensor kBFloat16 true [1; 33; 2; 8] [528; 16; 8; 1])
                     None false false in
  exists r, (mha_fwd unset_env mi200 globals_at_load a).1 = Done r /\
            fwd_launch r = None /\ fwd_out r = [1; 33; 2; 8].
Proof.
  intros a.
  destruct (mha_fwd unset_env mi200 globals_at_load a).1 as [r| |] eqn:Hr;
    [|vm_compute in Hr; discriminate | vm_compute in Hr; discriminate].
  exists r. split; [reflexivity|].
  destruct (mha_fwd_kernel_choice unset_env mi200 globals_at_load a r 1 33 2 8 Hr eq_refl)
    as (_ & Hnone & _).
  split; [apply Hnone; lia|].
  vm_compute in Hr. injection Hr as <-. reflexivity.
Defined.

Ltac int_lia := unfold INT_MIN, INT_MAX in *; lia.

Lemma size_in_range (x : Tensor) (i : nat) (z : Z) :
  sizes x !! i = Some z -> size x (Z.of_nat i) = Done z.
Proof.
  intros H. unfold size, wrap_dim.
  pose proof (lookup_lt_Some _ _ _ H) as Hlt.
  destruct (Z.leb_spec (- Z.of_nat (length (sizes x))) (Z.of_nat i)); [|lia].
  destruct (Z.ltb_spec (Z.of_nat i) (Z.of_nat (length (sizes x)))); [|lia].
  cbn [andb mbind outcome_bind].
  destruct (Z.ltb_spec (Z.of_nat i) 0); [lia|].
  rewrite Nat2Z.id, H. reflexivity.
Qed.

Lemma int_rem_value (a b : Z) : 0 < b -> int_rem a b = Done (Z.rem a b).
Proof.
  intros Hb. unfold int_rem.
  destruct (Z.eqb_spec b 0); [lia|]. destruct (Z.eqb_spec b (-1)); [lia|].
  by rewrite andb_false_r.
Qed.

(** ** [mha_bwd] *)

Example mha_bwd_example :
  let t := mkTensor kHalf true [2; 100; 8; 64] [51200; 512; 64; 1] in
  mha_bwd_checks
    (mkBwdArgs t t t t t (mkTensor kFloat true [2; 8; 100] [800; 100; 1])
               None None None true true)
  = Done (mkBwdResult [2; 100; 8; 64] [2; 100; 8; 64] [2; 100; 8; 64] [2; 8; 128]
            [CALL_BWD_PP kHalf 16 64 (mkDim3 112 1 1);
             bwd_kernel_dk_dv kHalf 16 64 16 true true (mkDim3 7 16 1);
             bwd_kernel_dq kHalf 16 64 16 true true (mkDim3 7 16 1)]).
Proof. vm_compute. reflexivity. Qed.

Lemma int_div_Done (a b c : Z) :
  int_div a b = Done c -> b <> 0 /\ c = Z.quot a b.
Proof.
  unfold int_div. destruct (Z.eqb_spec b 0); simpl; [discriminate|].
  destruct ((a =? INT_MIN) && (b =? -1)); intros Hd; inversion Hd. done.
Qed.

Lemma round_multiple_Done (x m r : Z) :
  round_multiple x m = Done r -> 0 <= x -> 0 < m ->
  r = (x + m - 1) / m * m /\ (m | r) /\ x <= r < x + m /\ x + m <= INT_MAX.
Proof.
  unfold round_multiple. intros H Hx Hm.
  bind_inv H a Ha. bind_inv H b Hb. bind_inv H c Hc.
  apply int_result_Done in Ha as [-> Ha], Hb as [-> Hb], H as [-> H].
  apply int_div_Done in Hc as [_ ->].
  rewrite Z.quot_div_nonneg by lia.
  split; [reflexivity|]. split; [by exists ((x + m - 1) / m)|].
  pose proof (Z.div_mod (x + m - 1) m ltac:(lia)).
  pose proof (Z.mod_pos_bound (x + m - 1) m Hm). lia.
Qed.

Lemma grad_or_empty_like_Done (g_ : option Tensor) (t : ScalarType)
    (shape : list Z) (like : Tensor) (name args : string) (l : list Z) :
  grad_or_empty_like g_ t shape like name args = Done l ->
  sizes like = shape ->
  l = shape /\
  (forall g, g_ = Some g ->
     dtype g = t /\ is_cuda g = true /\ stride g (-1) = Done 1 /\ sizes g = shape).
Proof.
  unfold grad_or_empty_like. intros H Hlike. destruct g_ as [g|].
  - check_inv H Hd. apply bool_decide_eq_true in Hd.
    unfold CHECK_DEVICE in H. check_inv H Hc.
    bind_inv H s Hs. check_inv H Hs1. apply Z.eqb_eq in Hs1. subst s.
    apply bind_Done in H as (u & Hsh & H). apply CHECK_SHAPE_Done in Hsh.
    injection H as <-. split; [exact Hsh|]. intros g' [= <-]. done.
  - injection H as <-. split; [exact Hlike | discriminate].
Qed.

Lemma to_unsigned_small (z : Z) : 0 <= z <= INT_MAX -> to_unsigned z = z.
Proof. intros H. unfold to_unsigned. apply Z.mod_small. int_lia. Qed.

Lemma ceil_div_16 (n : Z) : 0 <= n -> n + 16 <= INT_MAX ->
  exists a b, int_result (n + 16) = Done a /\ int_result (a - 1) = Done b /\
              int_div b 16 = Done ((n + 15) / 16) /\
              0 <= (n + 15) / 16 <= INT_MAX.
Proof.
  intros Hn Hmax. exists (n + 16), (n + 15).
  split; [apply int_result_in_range; int_lia|].
  split; [replace (n + 16 - 1) with (n + 15) by lia; apply int_result_in_range; int_lia|].
  assert (0 <= (n + 15) / 16 <= n + 15) as Hb.
  { split; [apply Z.div_pos; lia|]. apply Z.div_le_upper_bound; lia. }
  split; [|int_lia].
  unfold int_div. cbn [Z.eqb orb andb]. rewrite andb_false_r.
  by rewrite Z.quot_div_nonneg by lia.
Qed.

(** Everything a normal return of the checks of [mha_bwd] tells, on
    tensors whose sizes are not negative. *)
Lemma mha_bwd_checks_inv (a : bwd_args) (r : bwd_result) :
  mha_bwd_checks a = Done r ->
  Forall (Z.le 0) (sizes (b_k a)) -> Forall (Z.le 0) (sizes (b_dout a)) ->
  half_or_bfloat16 (dtype (b_q a)) = true /\
  dtype (b_k a) = dtype (b_q a) /\ dtype (b_v a) = dtype (b_q a) /\
  dtype (b_out a) = dtype (b_q a) /\ dtype (b_dout a) = dtype (b_q a) /\
  is_cuda (b_q a) = true /\ is_cuda (b_k a) = true /\ is_cuda (b_v a) = true /\
  is_cuda (b_out a) = true /\ is_cuda (b_dout a) = true /\
  is_cuda (b_softmax_lse a) = true /\
  exists B Sq H D Sk Hk Sqr,
    sizes (b_q a) = [B; Sq; H; D] /\
    sizes (b_k a) = [B; Sk; Hk; D] /\
    sizes (b_v a) = [B; Sk; Hk; D] /\
    sizes (b_out a) = [B; Sq; H; D] /\
    sizes (b_dout a) = [B; Sq; H; D] /\
    0 < B <= INT_MAX /\ 0 <= Sq /\ Sq + 128 <= INT_MAX /\
    0 <= Sk /\ Sk + 128 <= INT_MAX /\ 0 <= H <= INT_MAX /\
    0 < Hk <= INT_MAX /\ 0 <= D <= 256 /\
    Z.rem D 8 = 0 /\ Z.rem H Hk = 0 /\
    (b_is_causal a = true -> Sq = Sk) /\
    (forall g, dq_ a = Some g -> dtype g = dtype (b_q a) /\ sizes g = [B; Sq; H; D]) /\
    (forall g, dk_ a = Some g -> dtype g = dtype (b_q a) /\ sizes g = [B; Sk; Hk; D]) /\
    (forall g, dv_ a = Some g -> dtype g = dtype (b_q a) /\ sizes g = [B; Sk; Hk; D]) /\
    bwd_dq r = [B; Sq; H; D] /\ bwd_dk r = [B; Sk; Hk; D] /\
    bwd_dv r = [B; Sk; Hk; D] /\
    bwd_softmax_d r = [B; H; Sqr] /\ (128 | Sqr) /\ Sq <= Sqr < Sq + 128 /\
    exists pp bw,
      bwd_launches r = pp ++ bw /\
      bwd_pp_by_d_head (dtype (b_q a)) 16 D B H Sq = Done pp /\
      bwd_by_d_head (dtype (b_q a)) 16 16 (b_is_causal a) (b_is_dropout a)
        D B H Sq Sk = Done bw.
Proof.
  intros H0 Hknn Hdnn. unfold mha_bwd_checks in H0. cbv beta zeta in H0.
  check_inv H0 Hdq. check_inv H0 Hdk. check_inv H0 Hdv.
  check_inv H0 Hdo. check_inv H0 Hdd.
  apply bool_decide_eq_true in Hdk, Hdv, Hdo, Hdd.
  unfold CHECK_DEVICE in H0.
  check_inv H0 Hcq. check_inv H0 Hck. check_inv H0 Hcv.
  check_inv H0 Hco. check_inv H0 Hcd. check_inv H0 Hcl.
  bind_inv H0 sq Hsq. check_inv H0 Hsq1.
  bind_inv H0 sk Hsk. check_inv H0 Hsk1.
  bind_inv H0 sv Hsv. check_inv H0 Hsv1.
  bind_inv H0 so Hso. check_inv H0 Hso1.
  bind_inv H0 sd Hsd. check_inv H0 Hsd1.
  bind_inv H0 s0 Hs0. bind_inv H0 s1 Hs1. bind_inv H0 s2 Hs2.
  bind_inv H0 d3 Hd3. bind_inv H0 s3 Hs3.
  bind_inv H0 k1 Hk1. bind_inv H0 k2 Hk2.
  apply bind_Done in H0 as (u0 & Hcausal & H0).
  check_inv H0 Hb. apply Z.ltb_lt in Hb.
  bind_inv H0 r8 Hr8. check_inv H0 Hr8z. apply Z.eqb_eq in Hr8z. subst r8.
  bind_inv H0 r8' Hr8'. check_inv H0 Hr8z'. apply Z.eqb_eq in Hr8z'. subst r8'.
  check_inv H0 Hle. apply Z.leb_le in Hle.
  bind_inv H0 rh Hrh. check_inv H0 Hrhz. apply Z.eqb_eq in Hrhz. subst rh.
  bind_inv H0 hsr Hhsr. bind_inv H0 sqr Hsqr. bind_inv H0 skr Hskr.
  bind_inv H0 hs8 Hhs8. check_inv H0 Hhs. apply Z.eqb_eq in Hhs.
  apply bind_Done in H0 as (u1 & Hshq & H0). apply CHECK_SHAPE_Done in Hshq.
  apply bind_Done in H0 as (u2 & Hshk & H0). apply CHECK_SHAPE_Done in Hshk.
  apply bind_Done in H0 as (u3 & Hshv & H0). apply CHECK_SHAPE_Done in Hshv.
  apply bind_Done in H0 as (u4 & Hsho & H0). apply CHECK_SHAPE_Done in Hsho.
  apply bind_Done in H0 as (u5 & Hshd & H0). apply CHECK_SHAPE_Done in Hshd.
  destruct u0. clear u1 u2 u3 u4 u5.
  bind_inv H0 dq Hgq. bind_inv H0 dk Hgk. bind_inv H0 dv Hgv.
  apply grad_or_empty_like_Done in Hgq as [-> Hgq]; [|exact Hshq].
  apply grad_or_empty_like_Done in Hgk as [-> Hgk]; [|exact Hshk].
  apply grad_or_empty_like_Done in Hgv as [-> Hgv]; [|exact Hshk].
  bind_inv H0 softmax_d Hsd'. apply empty_Done in Hsd' as [-> Hsdnn].
  bind_inv H0 dq_accum Hacc. bind_inv H0 dk_expanded Hexp.
  rewrite Hshq, Hshk, Hshv, Hsho, Hshd in H0.
  bind_inv H0 q_t Hqt. bind_inv H0 k_t Hkt. bind_inv H0 v_t Hvt.
  bind_inv H0 out_t Hot. bind_inv H0 dq_t Hdqt. injection Hdqt as <-.
  bind_inv H0 dk_t Hdkt. injection Hdkt as <-.
  bind_inv H0 dv_t Hdvt. injection Hdvt as <-.
  bind_inv H0 dout_t Hdt. injection Hdt as <-.
  bind_inv H0 dout_t2 Hdt2. injection Hdt2 as <-.
  bind_inv H0 pp Hpp. bind_inv H0 bw Hbw.
  bind_inv H0 dq' Hdq'. injection Hdq' as <-.
  bind_inv H0 dk' Hdk'. injection Hdk' as <-.
  bind_inv H0 dv' Hdv'. injection Hdv' as <-.
  injection H0 as <-.
  (* the sizes that were read are the ones the shape checks compare with *)
  apply at_index_Done in Hs0, Hs1, Hs2, Hs3.
  apply (size_Done (b_k a) 1) in Hk1. apply (size_Done (b_k a) 2) in Hk2.
  apply (size_Done (b_dout a) 3) in Hd3.
  rewrite Hshq in Hs0, Hs1, Hs2, Hs3. rewrite Hshk in Hk1, Hk2. rewrite Hshd in Hd3.
  simpl in Hs0, Hs1, Hs2, Hs3, Hk1, Hk2, Hd3.
  injection Hs0 as Hs0. injection Hs1 as Hs1. injection Hs2 as Hs2.
  injection Hs3 as Hs3. injection Hk1 as Hk1. injection Hk2 as Hk2.
  injection Hd3 as Hd3.
  rewrite Hshk in Hknn. rewrite Hshd in Hdnn.
  rewrite !Forall_cons in Hknn. destruct Hknn as (_ & HSk & HHk & _).
  rewrite !Forall_cons in Hdnn. destruct Hdnn as (_ & HSq & HH & HDog & _).
  pose proof (to_int_range s0) as Hi0. pose proof (to_int_range s1) as Hi1.
  pose proof (to_int_range s2) as Hi2. pose proof (to_int_range s3) as Hi3.
  pose proof (to_int_range k1) as Hi4. pose proof (to_int_range k2) as Hi5.
  set (B := to_int s0) in *. set (Sq := to_int s1) in *.
  set (H := to_int s2) in *. set (D := to_int s3) in *.
  set (Dog := to_int d3) in *.
  set (Sk := to_int k1) in *. set (Hk := to_int k2) in *.
  apply int_rem_Done in Hr8 as [_ Hr8], Hr8' as [_ Hr8'], Hrh as [Hk0 Hrh].
  (* head_size is head_size_og *)
  apply (round_multiple_Done Dog 8) in Hhs8 as (_ & [j Hj] & Hjb & _); [|lia|lia].
  assert (D = Dog) as HD.
  { symmetry in Hr8'. apply Z.rem_divide in Hr8' as [i Hi]; [|lia]. lia. }
  apply (round_multiple_Done Sq 128) in Hsqr as (_ & Hsqr1 & Hsqr2 & Hsqr3); [|lia|lia].
  apply (round_multiple_Done Sk 128) in Hskr as (_ & _ & _ & Hskr3); [|lia|lia].
  do 11 (split; [done|]).
  exists B, Sq, H, D, Sk, Hk, sqr.
  split; [done|]. split; [done|]. split; [done|]. split; [done|].
  split; [by rewrite HD|].
  split; [lia|]. split; [lia|]. split; [lia|]. split; [lia|]. split; [lia|].
  split; [lia|]. split; [lia|]. split; [lia|].
  split; [lia|]. split; [lia|].
  split.
  { intros Hc. rewrite Hc in Hcausal. apply TORCH_CHECK_Done in Hcausal.
    by apply Z.eqb_eq in Hcausal. }
  split; [intros g Hg; destruct (Hgq g Hg) as (? & _ & _ & ?); done|].
  split; [intros g Hg; destruct (Hgk g Hg) as (? & _ & _ & ?); done|].
  split; [intros g Hg; destruct (Hgv g Hg) as (? & _ & _ & ?); done|].
  do 4 (split; [done|]). split; [done|]. split; [done|].
  exists pp, bw. split; [reflexivity|].
  unfold half_or_bfloat16 in Hdq. rewrite <- HD in Hpp, Hbw.
  destruct (dtype (b_q a)); try discriminate; split; assumption.
Qed.

Lemma quot_ceil_16 (n : Z) : 0 <= n -> Z.quot (n + 16 - 1) 16 = (n + 15) / 16.
Proof.
  intros Hn. rewrite Z.quot_div_nonneg by lia. f_equal. lia.
Qed.

Lemma bwd_pp_by_d_head_Done (FP : ScalarType) (D B H Sq : Z) (pp : list bwd_kernel) :
  bwd_pp_by_d_head FP 16 D B H Sq = Done pp -> 0 <= Sq ->
  (D = 16 \/ D = 32 \/ D = 64 \/ D = 128 ->
     pp = [CALL_BWD_PP FP 16 D
             (mkDim3 (to_unsigned (B * H * ((Sq + 15) / 16))) 1 1)]) /\
  (D <> 16 -> D <> 32 -> D <> 64 -> D <> 128 -> pp = []).
Proof.
  unfold bwd_pp_by_d_head. intros Hpp HSq. rewrite (quot_ceil_16 Sq HSq) in Hpp.
  destruct (Z.eqb_spec D 16) as [->|]; [|destruct (Z.eqb_spec D 32) as [->|];
    [|destruct (Z.eqb_spec D 64) as [->|]; [|destruct (Z.eqb_spec D 128) as [->|]]]].
  1-4: bind_inv Hpp bh Hbh; apply int_result_Done in Hbh as [-> _];
       injection Hpp as <-; split; [reflexivity | lia].
  injection Hpp as <-. split; [lia | reflexivity].
Qed.

Lemma bwd_by_d_head_Done (FP : ScalarType) (causal dropout : bool)
    (D B H Sq Sk : Z) (bw : list bwd_kernel) :
  bwd_by_d_head FP 16 16 causal dropout D B H Sq Sk = Done bw ->
  0 <= Sq -> 0 <= Sk -> 0 <= B -> 0 <= H ->
  (D = 16 \/ D = 32 \/ D = 64 \/ D = 128 ->
     bw = [bwd_kernel_dk_dv FP 16 D 16 causal dropout
             (mkDim3 ((Sk + 15) / 16) (B * H) 1);
           bwd_kernel_dq FP 16 D 16 causal dropout
             (mkDim3 ((Sq + 15) / 16) (B * H) 1)] /\
     B * H <= INT_MAX) /\
  (D <> 16 -> D <> 32 -> D <> 64 -> D <> 128 -> bw = []).
Proof.
  unfold bwd_by_d_head. intros Hbw HSq HSk HB HH.
  assert (forall DM ED,
    (a ← int_result (Sk + 16); b ← int_result (a - 1); gx ← int_div b 16;
     gy ← int_result (B * H);
     a' ← int_result (Sq + 16); b' ← int_result (a' - 1); gx' ← int_div b' 16;
     Done [bwd_kernel_dk_dv FP 16 DM 16 causal ED
             (mkDim3 (to_unsigned gx) (to_unsigned gy) 1);
           bwd_kernel_dq FP 16 DM 16 causal ED
             (mkDim3 (to_unsigned gx') (to_unsigned gy) 1)]) = Done bw ->
    bw = [bwd_kernel_dk_dv FP 16 DM 16 causal ED
            (mkDim3 ((Sk + 15) / 16) (B * H) 1);
          bwd_kernel_dq FP 16 DM 16 causal ED
            (mkDim3 ((Sq + 15) / 16) (B * H) 1)] /\ B * H <= INT_MAX) as Hcall.
  { intros DM ED Hc.
    bind_inv Hc a Ha. bind_inv Hc b Hb. bind_inv Hc gx Hgx. bind_inv Hc gy Hgy.
    bind_inv Hc a' Ha'. bind_inv Hc b' Hb'. bind_inv Hc gx' Hgx'.
    apply int_result_Done in Ha as [-> Ha], Hb as [-> Hb], Hgy as [-> Hgy],
      Ha' as [-> Ha'], Hb' as [-> Hb'].
    apply int_div_Done in Hgx as [_ ->], Hgx' as [_ ->].
    rewrite !quot_ceil_16 in Hc by lia.
    assert (0 <= (Sk + 15) / 16 <= INT_MAX) as Hk.
    { split; [apply Z.div_pos; lia|].
      apply Z.div_le_upper_bound; [lia|]. int_lia. }
    assert (0 <= (Sq + 15) / 16 <= INT_MAX) as Hq.
    { split; [apply Z.div_pos; lia|].
      apply Z.div_le_upper_bound; [lia|]. int_lia. }
    rewrite !to_unsigned_small in Hc by (first [done | split; [nia | lia]]).
    injection Hc as <-. split; [reflexivity | lia]. }
  destruct (Z.eqb_spec D 16) as [->|]; [|destruct (Z.eqb_spec D 32) as [->|];
    [|destruct (Z.eqb_spec D 64) as [->|]; [|destruct (Z.eqb_spec D 128) as [->|]]]].
  1-4: split; [intros _; destruct dropout; by apply Hcall | lia].
  injection Hbw as <-. split; [lia | reflexivity].
Qed.

Lemma mha_bwd_Done (env : environment) (name : string) (g : globals)
    (a : bwd_args) (r : bwd_result) :
  (mha_bwd env name g a).1 = Done r ->
  (check_gpu_arch env name g).1 = Done tt /\ mha_bwd_checks a = Done r.
Proof.
  unfold mha_bwd. cbn [fst]. intros H.
  apply bind_Done in H as ([] & H1 & H2). done.
Qed.

(** X15: what a normal return of [mha_bwd] guarantees, on tensors whose
    sizes are not negative.  q, k, v, out and dout have one dtype, half
    or bfloat16, and are CUDA tensors, as is softmax_lse; q, out and dout
    have one shape (B, Sq, H, D), so that the head size of dout is the
    head size of q; k and v have the shape (B, Sk, Hk, D); B > 0, D is a
    multiple of 8 between 0 and 256, Hk > 0 divides H, and with
    [is_causal] Sq = Sk.  The returned dq has the shape of q, dk and dv
    have the shape of k, and softmax_d has the shape (B, H, Sqr) where
    Sqr is Sq rounded up to a multiple of 128. *)
Theorem mha_bwd_postcondition (env : environment) (name : string)
    (g : globals) (a : bwd_args) (r : bwd_result) :
  (mha_bwd env name g a).1 = Done r ->
  Forall (Z.le 0) (sizes (b_k a)) -> Forall (Z.le 0) (sizes (b_dout a)) ->
  half_or_bfloat16 (dtype (b_q a)) = true /\
  dtype (b_k a) = dtype (b_q a) /\ dtype (b_v a) = dtype (b_q a) /\
  dtype (b_out a) = dtype (b_q a) /\ dtype (b_dout a) = dtype (b_q a) /\
  is_cuda (b_q a) = true /\ is_cuda (b_k a) = true /\ is_cuda (b_v a) = true /\
  is_cuda (b_out a) = true /\ is_cuda (b_dout a) = true /\
  is_cuda (b_softmax_lse a) = true /\
  exists B Sq H D Sk Hk Sqr,
    sizes (b_q a) = [B; Sq; H; D] /\
    sizes (b_k a) = [B; Sk; Hk; D] /\
    sizes (b_v a) = [B; Sk; Hk; D] /\
    sizes (b_out a) = [B; Sq; H; D] /\
    sizes (b_dout a) = [B; Sq; H; D] /\
    0 < B /\ 0 <= Sq /\ 0 <= Sk /\ 0 <= H /\ 0 < Hk /\ 0 <= D <= 256 /\
    Z.rem D 8 = 0 /\ Z.rem H Hk = 0 /\
    (b_is_causal a = true -> Sq = Sk) /\
    bwd_dq r = [B; Sq; H; D] /\ bwd_dk r = [B; Sk; Hk; D] /\
    bwd_dv r = [B; Sk; Hk; D] /\
    bwd_softmax_d r = [B; H; Sqr] /\ (128 | Sqr) /\ Sq <= Sqr < Sq + 128.
Proof.
  intros H0 Hk Hd. apply mha_bwd_Done in H0 as [_ H0].
  destruct (mha_bwd_checks_inv a r H0 Hk Hd)
    as (? & ? & ? & ? & ? & ? & ? & ? & ? & ? & ? &
        B & Sq & H & D & Sk & Hkk & Sqr & Hrest).
  do 11 (split; [done|]).
  exists B, Sq, H, D, Sk, Hkk, Sqr.
  destruct Hrest as (? & ? & ? & ? & ? & ? & ? & ? & ? & ? & ? & ? & ? & ? & ? &
                     ? & ? & ? & ? & ? & ? & ? & ? & ? & ? & _).
  repeat (split; [done || lia |]). lia.
Qed.

Lemma mha_bwd_postcondition_witness :
  let t := mkTensor kHalf true [2; 100; 8; 64] [51200; 512; 64; 1] in
  let a := mkBwdArgs t t t t t (mkTensor kFloat true [2; 8; 100] [800; 100; 1])
                     None None None true true in
  Forall (Z.le 0) (sizes (b_k a)) /\ Forall (Z.le 0) (sizes (b_dout a)) /\
  exists r, (mha_bwd unset_env mi200 globals_at_load a).1 = Done r /\
            dtype (b_dout a) = dtype (b_q a) /\
            sizes (b_dout a) = sizes (b_q a).
Proof.
  intros t a.
  assert (Forall (Z.le 0) (sizes (b_k a))) as Hk by (repeat constructor; lia).
  assert (Forall (Z.le 0) (sizes (b_dout a))) as Hd by (repeat constructor; lia).
  split; [exact Hk|]. split; [exact Hd|].
  destruct (mha_bwd unset_env mi200 globals_at_load a).1 as [r| |] eqn:Hr;
    [|vm_compute in Hr; discriminate | vm_compute in Hr; discriminate].
  exists r. split; [reflexivity|].
  destruct (mha_bwd_postcondition unset_env mi200 globals_at_load a r Hr Hk Hd)
    as (_ & _ & _ & _ & Hdd & _ & _ & _ & _ & _ & _ &
        B & Sq & H & D & Sk & Hkk & Sqr & Hq & _ & _ & _ & Hdo & _).
  split; [exact Hdd|]. by rewrite Hq, Hdo.
Defined.

(** X16: which kernels [mha_bwd] runs.  On a normal return with q of
    shape (B, Sq, H, D) and k of shape (B, Sk, Hk, D): when D is 16, 32,
    64 or 128 three kernels are called, in this order and all for the
    dtype of q with BLOCK_DMODEL = D and blocks of 16: the preprocess
    kernel on B * H * ceil(Sq / 16) blocks, the dk/dv kernel on
    ceil(Sk / 16) by B * H blocks and the dq kernel on ceil(Sq / 16) by
    B * H blocks, the last two with CAUSAL = [is_causal] and
    ENABLE_DROPOUT = (p_dropout > 0); B * H then fits [int].  For every
    other D no kernel is called. *)
Theorem mha_bwd_kernel_choice (env : environment) (name : string)
    (g : globals) (a : bwd_args) (r : bwd_result) (B Sq H D Sk Hk : Z) :
  (mha_bwd env name g a).1 = Done r ->
  Forall (Z.le 0) (sizes (b_k a)) -> Forall (Z.le 0) (sizes (b_dout a)) ->
  sizes (b_q a) = [B; Sq; H; D] -> sizes (b_k a) = [B; Sk; Hk; D] ->
  (D = 16 \/ D = 32 \/ D = 64 \/ D = 128 ->
     bwd_launches r =
       [CALL_BWD_PP (dtype (b_q a)) 16 D
          (mkDim3 (to_unsigned (B * H * ((Sq + 15) / 16))) 1 1);
        bwd_kernel_dk_dv (dtype (b_q a)) 16 D 16 (b_is_causal a) (b_is_dropout a)
          (mkDim3 ((Sk + 15) / 16) (B * H) 1);
        bwd_kernel_dq (dtype (b_q a)) 16 D 16 (b_is_causal a) (b_is_dropout a)
          (mkDim3 ((Sq + 15) / 16) (B * H) 1)] /\
     B * H <= INT_MAX) /\
  (D <> 16 -> D <> 32 -> D <> 64 -> D <> 128 -> bwd_launches r = []).
Proof.
  intros H0 Hknn Hdnn Hqs Hks. apply mha_bwd_Done in H0 as [_ H0].
  destruct (mha_bwd_checks_inv a r H0 Hknn Hdnn)
    as (_ & _ & _ & _ & _ & _ & _ & _ & _ & _ & _ &
        B' & Sq' & H' & D' & Sk' & Hk' & Sqr & Hqs' & Hks' & Hrest).
  rewrite Hqs in Hqs'. injection Hqs' as <- <- <- <-.
  rewrite Hks in Hks'. injection Hks' as <- <-.
  destruct Hrest as (_ & _ & _ & HB & HSq & _ & HSk & _ & HH & _ & _ & _ & _ &
                     _ & _ & _ & _ & _ & _ & _ & _ & _ & _ & pp & bw & -> & Hpp & Hbw).
  destruct (bwd_pp_by_d_head_Done _ _ _ _ _ _ Hpp HSq) as [Hpp1 Hpp0].
  destruct (bwd_by_d_head_Done _ _ _ _ _ _ _ _ _ Hbw HSq HSk ltac:(lia) ltac:(lia))
    as [Hbw1 Hbw0].
  split.
  - intros HD. destruct (Hbw1 HD) as [-> Hbh]. rewrite (Hpp1 HD). done.
  - intros. rewrite Hpp0, Hbw0 by done. reflexivity.
Qed.

(** With head size 8 the checks pass and no kernel runs. *)
Lemma mha_bwd_kernel_choice_witness :
  let t := mkTensor kBFloat16 true [1; 33; 2; 8] [528; 16; 8; 1] in
  let a := mkBwdArgs t t t t t (mkTensor kFloat true [1; 2; 33] [66; 33; 1])
                     None None None false false in
  exists r, (mha_bwd unset_env mi200 globals_at_load a).1 = Done r /\
            bwd_launches r = [] /\ bwd_dq r = [1; 33; 2; 8].
Proof.
  intros t a.
  assert (Forall (Z.le 0) (sizes (b_k a))) as Hk by (repeat constructor; lia).
  assert (Forall (Z.le 0) (sizes (b_dout a))) as Hd by (repeat constructor; lia).
  destruct (mha_bwd unset_env mi200 globals_at_load a).1 as [r| |] eqn:Hr;
    [|vm_compute in Hr; discriminate | vm_compute in Hr; discriminate].
  exists r. split; [reflexivity|].
  destruct (mha_bwd_kernel_choice unset_env mi200 globals_at_load a r 1 33 2 8 33 2
              Hr Hk Hd eq_refl eq_refl) as [_ Hnone].
  split; [apply Hnone; lia|].
  vm_compute in Hr. injection Hr as <-. reflexivity.
Defined.

(** X18: a key tensor without heads.  When q passes the checks on dtype,
    device, stride, batch size and head size and the third size of k is
    0, [mha_fwd] evaluates [num_heads % num_heads_k] with a divisor of 0:
    the behaviour is undefined in C++, and the check with the message
    about the number of heads is not what stops the call. *)
Theorem mha_fwd_zero_kv_heads (a : fwd_args) (B Sq H D Bk Sk Dk : Z) :
  half_or_bfloat16 (dtype (q a)) = true ->
  dtype (k a) = dtype (q a) -> dtype (v a) = dtype (q a) ->
  is_cuda (q a) = true -> is_cuda (k a) = true -> is_cuda (v a) = true ->
  stride (q a) (-1) = Done 1 -> stride (k a) (-1) = Done 1 ->
  stride (v a) (-1) = Done 1 ->
  sizes (q a) = [B; Sq; H; D] ->
  sizes (k a) = [Bk; Sk; 0; Dk] ->
  0 < B <= INT_MAX -> 0 <= D <= 256 -> Z.rem D 8 = 0 ->
  mha_fwd_checks a = Undefined.
Proof.
  intros Hdq Hdk Hdv Hcq Hck Hcv Hsq Hsk Hsv Hshq Hshk HB HD HD8.
  unfold mha_fwd_checks. cbv zeta.
  rewrite Hdq, Hdk, Hdv, !bool_decide_eq_true_2 by done.
  unfold CHECK_DEVICE. rewrite Hcq, Hck, Hcv, Hsq, Hsk, Hsv.
  cbn [TORCH_CHECK mbind outcome_bind Z.eqb Pos.eqb].
  assert (size (k a) 1 = Done Sk) as Hk1
    by (apply (size_in_range (k a) 1); by rewrite Hshk).
  assert (size (k a) 2 = Done 0) as Hk2
    by (apply (size_in_range (k a) 2); by rewrite Hshk).
  rewrite Hk1, Hk2, Hshq. cbn [at_index lookup list_lookup mbind outcome_bind].
  rewrite (to_int_small B), (to_int_small D) by int_lia.
  destruct (Z.ltb_spec 0 B); [|lia]. cbn [TORCH_CHECK mbind outcome_bind].
  rewrite (int_rem_value D 8) by lia. cbn [mbind outcome_bind].
  rewrite HD8. cbn [Z.eqb TORCH_CHECK mbind outcome_bind].
  destruct (Z.leb_spec D 256); [|lia]. cbn [TORCH_CHECK mbind outcome_bind].
  reflexivity.
Qed.

Lemma mha_fwd_zero_kv_heads_witness :
  let a := mkFwdArgs (mkTensor kHalf true [2; 100; 8; 64] [51200; 512; 64; 1])
                     (mkTensor kHalf true [2; 77; 0; 64] [0; 0; 64; 1])
                     (mkTensor kHalf true [2; 77; 0; 64] [0; 0; 64; 1])
                     None false false in
  sizes (k a) = [2; 77; 0; 64] /\ mha_fwd_checks a = Undefined.
Proof.
  intros a. split; [reflexivity|].
  apply (mha_fwd_zero_kv_heads a 2 100 8 64 2 77 64);
    try reflexivity; try (unfold INT_MAX; lia).
Defined.
